(** * Laverna: the configs collection module
    (app/scripts/collections/modules/configs.js)

    A shallow embedding of the module and the properties of its profile
    resolution, batched save and encryption backup.

    Conventions of the embedding.
    - JavaScript data are values of [JSValue]: undefined, null, booleans,
      integers, NaN, strings and plain objects.  An object is the ordered
      list of its own properties; property access reads the first binding of
      a key, assignment replaces it in place or appends a new one.  Keys
      that look like array indices are kept in insertion order too.
      Members inherited from [Object.prototype] are modelled where the
      name read is chosen by the caller ([getConfig]), and an assignment
      to [__proto__] where the name comes from the data ([_.indexBy]);
      everywhere else only own properties are read.
    - A config entry ([{name: .., value: ..}]) is always an object, and the
      options of [getAll] are an object, as the module documents its
      inputs.
    - A call either returns or throws ([Exc]); a promise is a suspended
      computation on the world that settles, when it runs, as fulfilled or
      rejected ([Async]).  The synchronous part of a function runs at the
      call, the promises it created run afterwards, one after the other in
      the order of their creation.  A collaborator that hands back a
      promise is one step, taken when its promise runs: the module starts
      such calls at once, and the effect they may already have had when
      the synchronous part ends is not modelled.
    - ModuleObject (collections/modules/module.js), the Configs collection
      (collections/configs.js), Backbone models and the sha256 service are
      collaborators: fields of [Env] acting on an abstract state.
      Collaborators that hand back a promise report failure by rejecting
      it; they do not announce events on the [configs] channel.  The two
      conversions between numbers and strings are fields of [Env] too.
    - [getProfiles] and [_getDefaultProfiles] come after the rest of the
      module, over an environment of their own ([ProfilesEnv]). *)

From Stdlib Require Import List String Ascii ZArith Bool.
Import ListNotations.
Open Scope string_scope.
Set Warnings "-register-all".

(** ** JavaScript values *)

Inductive JSValue : Type :=
| JUndefined
| JNull
| JBool (b : bool)
| JNum (n : Z)
| JNaN
| JStr (s : string)
| JObj (props : list (string * JSValue)).

(** A plain object: its own properties in insertion order. *)
Definition Obj : Type := list (string * JSValue).

Inductive JSError : Type :=
| TypeError
| Failure (reason : JSValue).

(** Result of a synchronous call. *)
Inductive Exc (A : Type) : Type :=
| Returned (a : A)
| Threw (e : JSError).
Arguments Returned {A} a.
Arguments Threw {A} e.

(** State of a promise once it has settled. *)
Inductive Settled (A : Type) : Type :=
| Fulfilled (a : A)
| Rejected (e : JSError).
Arguments Fulfilled {A} a.
Arguments Rejected {A} e.

Definition exc_bind {A B} (c : Exc A) (k : A -> Exc B) : Exc B :=
  match c with
  | Returned a => k a
  | Threw e => Threw e
  end.

Notation "x <-! c ;; k" := (exc_bind c (fun x => k))
  (at level 61, c at next level, right associativity).

(** ** Objects as ordered property lists *)

Section Properties.
Context {V : Type}.

(** [o.hasOwnProperty(k)] together with the value. *)
Fixpoint get_own (k : string) (o : list (string * V)) : option V :=
  match o with
  | [] => None
  | (k', v) :: rest => if String.eqb k k' then Some v else get_own k rest
  end.

(** [o[k] = v] *)
Fixpoint set_prop (k : string) (v : V) (o : list (string * V))
  : list (string * V) :=
  match o with
  | [] => [(k, v)]
  | (k', v') :: rest =>
      if String.eqb k k' then (k, v) :: rest
      else (k', v') :: set_prop k v rest
  end.

(** [_.keys(o)]: every own key once. *)
Definition keys (o : list (string * V)) : list string :=
  nodup string_dec (map fst o).

(** What [_.each(o, ..)] visits: every own key once, with [o[key]]. *)
Definition own_entries (o : list (string * V)) : list (string * V) :=
  flat_map (fun k => match get_own k o with
                     | Some v => [(k, v)]
                     | None => []
                     end) (keys o).
End Properties.

(** [o.k] on a plain object, for a name [k] that [Object.prototype] does
    not define ([name], [value], [profile], [encryptPass], ..). *)
Definition get_prop (k : string) (o : Obj) : JSValue :=
  match get_own k o with
  | Some v => v
  | None => JUndefined
  end.

(** ** Language primitives *)

(** [Boolean(v)] *)
Definition truthy (v : JSValue) : bool :=
  match v with
  | JUndefined | JNull | JNaN => false
  | JBool b => b
  | JNum n => negb (Z.eqb n 0)
  | JStr s => negb (String.eqb s "")
  | JObj _ => true
  end.

(** The members every plain object inherits from [Object.prototype]. *)
Definition Object_prototype : list string :=
  ["constructor"; "hasOwnProperty"; "isPrototypeOf"; "propertyIsEnumerable";
   "toLocaleString"; "toString"; "valueOf"; "__proto__";
   "__defineGetter__"; "__defineSetter__";
   "__lookupGetter__"; "__lookupSetter__"].

Definition inherited (k : string) : bool :=
  existsb (String.eqb k) Object_prototype.

(** What [o[k]] gives for any name [k]: a value of the language, or the
    member [k] of [Object.prototype], which is a function (for
    [__proto__], the prototype itself) and therefore truthy. *)
Inductive Read : Type :=
| Value (v : JSValue)
| Inherited (k : string).

(** [o[k]] on a plain object, for any name [k]. *)
Definition get_any (k : string) (o : Obj) : Read :=
  match get_own k o with
  | Some v => Value v
  | None => if inherited k then Inherited k else Value JUndefined
  end.

(** [Boolean(r)] *)
Definition truthy_read (r : Read) : bool :=
  match r with
  | Value v => truthy v
  | Inherited _ => true
  end.

(** [typeof v === 'object'] *)
Definition typeof_object (v : JSValue) : bool :=
  match v with
  | JNull | JObj _ => true
  | _ => false
  end.

(** [v.k] for a property name that no built-in prototype defines. *)
Definition get_member (v : JSValue) (k : string) : Exc JSValue :=
  match v with
  | JUndefined | JNull => Threw TypeError
  | JObj o => Returned (get_prop k o)
  | _ => Returned JUndefined
  end.

(** [v === s] for a string [s]. *)
Definition strict_eq_str (v : JSValue) (s : string) : bool :=
  match v with
  | JStr s' => String.eqb s' s
  | _ => false
  end.

(** ** Collaborators *)

Record Env : Type := {
  (** JavaScript built-ins on numbers *)
  Number_toString : Z -> string;            (* n.toString() *)
  StringToNumber_truthy : string -> bool;   (* Boolean(Number(s)) *)

  St : Type;      (* everything the collaborators hold *)
  Model : Type;   (* a Backbone model *)
  Coll : Type;    (* a Configs collection *)

  (** the module object's own fields *)
  this_collection : St -> option Coll;
  this_defaultDB : St -> string;

  (** Backbone.Collection and collections/configs.js *)
  coll_length : Coll -> St -> nat;
  coll_get : Coll -> string -> St -> option Model;
  coll_pluck_name : Coll -> St -> list JSValue;
  coll_getConfigs : Coll -> St -> Obj;
  coll_getDefault : Coll -> JSValue -> St -> option Model;
  coll_hasNewConfigs : Coll -> St -> bool;
  coll_migrateFromLocal : Coll -> St -> Settled JSValue * St;
  coll_createDefault : Coll -> JSValue -> St -> Settled JSValue * St;
  coll_trigger_reset_all : Coll -> St -> St;

  (** ModuleObject.prototype (collections/modules/module.js) *)
  base_getModel : JSValue -> St -> Settled (option Model) * St;
  base_getAll : Obj -> St -> Settled JSValue * St;
  base_saveModel : Model -> Obj -> St -> Settled JSValue * St;
  base_changeDatabase_new : JSValue -> St -> Coll * St;
                                  (* new (this.changeDatabase(options))() *)

  (** Backbone models of configs *)
  model_get : Model -> string -> St -> JSValue;
  model_toJSON : Model -> St -> JSValue;
  model_set : Model -> JSValue -> St -> St;
  model_changeDB : Model -> JSValue -> St -> St;
  model_isPassword : Model -> Obj -> St -> bool;
  model_database_id : Model -> St -> JSValue;
  model_createProfile : Model -> JSValue -> St -> JSValue * St;
  model_removeProfile : Model -> JSValue -> St -> Settled JSValue * St;

  (** Radio.request('encrypt', 'sha256', value) *)
  encrypt_sha256 : JSValue -> St -> Settled JSValue * St
}.

Section Values.
Variable E : Env.

(** [v.toString()] *)
Definition toString (v : JSValue) : Exc string :=
  match v with
  | JUndefined | JNull => Threw TypeError
  | JBool true => Returned "true"
  | JBool false => Returned "false"
  | JNum n => Returned (Number_toString E n)
  | JNaN => Returned "NaN"
  | JStr s => Returned s
  | JObj o =>
      match get_own "toString" o with
      | None => Returned "[object Object]"
      | Some _ => Threw TypeError   (* an own data property is not callable *)
      end
  end.

(** The key under which [o[v]] reads and writes. *)
Definition to_key (v : JSValue) : Exc string :=
  match v with
  | JUndefined => Returned "undefined"
  | JNull => Returned "null"
  | _ => toString v
  end.

(** [Boolean(Number(v))] *)
Definition number_truthy (v : JSValue) : Exc bool :=
  match v with
  | JUndefined | JNull | JNaN => Returned false
  | JBool b => Returned b
  | JNum n => Returned (negb (Z.eqb n 0))
  | JStr s => Returned (StringToNumber_truthy E s)
  | JObj o =>
      match get_own "toString" o with
      | None => Returned false       (* Number("[object Object]") is NaN *)
      | Some _ => Threw TypeError
      end
  end.
End Values.

(** ** Underscore *)

(** [_.isEmpty(v)] *)
Definition isEmpty (v : JSValue) : bool :=
  match v with
  | JStr s => String.eqb s ""
  | JObj o => match o with [] => true | _ => false end
  | _ => true
  end.

(** What Underscore iterates over: an array or an object. *)
Inductive Collection : Type :=
| ArrayOf (elems : list JSValue)
| ObjectOf (o : Obj).

Fixpoint indexed (i : Z) (l : list JSValue) : list (JSValue * JSValue) :=
  match l with
  | [] => []
  | v :: rest => (v, JNum i) :: indexed (i + 1) rest
  end.

(** The (value, key) pairs [_.each] visits: the elements of an array with
    their indices, the own properties of an object with their keys. *)
Definition items (c : Collection) : list (JSValue * JSValue) :=
  match c with
  | ArrayOf l => indexed 0 l
  | ObjectOf o => map (fun kv => (snd kv, JStr (fst kv))) (own_entries o)
  end.

(** [_.filter(collection, predicate)] *)
Fixpoint filter_ (p : JSValue -> JSValue -> Exc bool)
  (its : list (JSValue * JSValue)) : Exc (list JSValue) :=
  match its with
  | [] => Returned []
  | (v, k) :: rest =>
      b <-! p v k ;;
      vs <-! filter_ p rest ;;
      Returned (if b then v :: vs else vs)
  end.

(** [_.pluck(list, key)] *)
Definition pluck (key : string) (l : list JSValue) : list JSValue :=
  map (fun v => match v with
                | JObj o => get_prop key o
                | _ => JUndefined
                end) l.

(** [_.allKeys] finds keys in objects only. *)
Definition own_props (v : JSValue) : Obj :=
  match v with
  | JObj o => o
  | _ => []
  end.

(** [_.extend(target, source)] for one source: every key of the source is
    assigned, in order. *)
Definition extend1 (target : Obj) (source : JSValue) : Obj :=
  fold_left (fun acc k => set_prop k (get_prop k (own_props source)) acc)
            (keys (own_props source)) target.

(** [_.extend(target, s1, s2)] *)
Definition extend (target : Obj) (s1 s2 : JSValue) : Obj :=
  extend1 (extend1 target s1) s2.

Section Underscore.
Variable E : Env.

(** [_.pick(obj, keys)] *)
Fixpoint pick_into (result obj : Obj) (ks : list JSValue) : Exc Obj :=
  match ks with
  | [] => Returned result
  | k :: rest =>
      key <-! to_key E k ;;
      match get_own key obj with
      | Some v => pick_into (set_prop key v result) obj rest
      | None => pick_into result obj rest
      end
  end.

Definition pick (obj : Obj) (ks : list JSValue) : Exc Obj :=
  pick_into [] obj ks.

(** [_.indexBy(list, 'name')] on an array of entries: [result[key] =
    entry] for each entry in turn.  For the key [__proto__] the assignment
    gives the result no property of its own (it makes the entry the
    prototype of the result, which is not tracked). *)
Fixpoint indexBy_name (result : list (string * Obj)) (l : list Obj)
  : Exc (list (string * Obj)) :=
  match l with
  | [] => Returned result
  | entry :: rest =>
      key <-! to_key E (get_prop "name" entry) ;;
      if String.eqb key "__proto__" then indexBy_name result rest
      else indexBy_name (set_prop key entry result) rest
  end.
End Underscore.

(** ** Events, the world and promises *)

(** What the module announces on the [configs] channel. *)
Inductive Event : Type :=
| Ev_changed (objects : list (string * Obj))
| Ev_removed_profile (name : JSValue)
| Ev_collection_empty.

Record World (E : Env) : Type := mkWorld {
  st : St E;
  events : list Event;        (* oldest first *)
  console : list JSError      (* what console.error printed *)
}.
Arguments mkWorld {E} st events console.
Arguments st {E} w.
Arguments events {E} w.
Arguments console {E} w.

(** How a call that hands back a promise ends. *)
Inductive Completion (A : Type) : Type :=
| Done (a : A)            (* the promise is fulfilled *)
| Failed (e : JSError)    (* the promise is rejected *)
| Raised (e : JSError).   (* the call threw, no promise came back *)
Arguments Done {A} a.
Arguments Failed {A} e.
Arguments Raised {A} e.

Section Effects.
Variable E : Env.

Definition Sync (A : Type) : Type := World E -> Exc A * World E.
Definition Async (A : Type) : Type := World E -> Settled A * World E.

Definition ret {A} (a : A) : Sync A := fun w => (Returned a, w).

Definition throw {A} (e : JSError) : Sync A := fun w => (Threw e, w).

Definition bind {A B} (c : Sync A) (k : A -> Sync B) : Sync B :=
  fun w =>
    match c w with
    | (Returned a, w1) => k a w1
    | (Threw e, w1) => (Threw e, w1)
    end.

Definition lift_exc {A} (c : Exc A) : Sync A := fun w => (c, w).

Definition with_st (w : World E) (s : St E) : World E :=
  mkWorld s (events w) (console w).

Definition read {A} (f : St E -> A) : Sync A :=
  fun w => (Returned (f (st w)), w).

Definition update (f : St E -> St E) : Sync unit :=
  fun w => (Returned tt, with_st w (f (st w))).

Definition call_st {A} (f : St E -> A * St E) : Sync A :=
  fun w => let (a, s) := f (st w) in (Returned a, with_st w s).

(** [Radio.trigger('configs', ..)] and [this.vent.trigger(..)] *)
Definition trigger (ev : Event) : Sync unit :=
  fun w => (Returned tt, mkWorld (st w) (events w ++ [ev]) (console w)).

(** [console.error('Error:', e)] *)
Definition console_error (e : JSError) : Sync unit :=
  fun w => (Returned tt, mkWorld (st w) (events w) (console w ++ [e])).

(** [new Q(value)] *)
Definition resolved {A} (a : A) : Async A := fun w => (Fulfilled a, w).

(** The promise a collaborator hands back. *)
Definition promise_of {A} (f : St E -> Settled A * St E) : Async A :=
  fun w => let (r, s) := f (st w) in (r, with_st w s).

(** [p.then(f)]: a callback that throws rejects the derived promise; a
    promise it returns is awaited. *)
Definition then_ {A B} (p : Async A) (f : A -> Sync (Async B)) : Async B :=
  fun w =>
    match p w with
    | (Fulfilled a, w1) =>
        match f a w1 with
        | (Returned q, w2) => q w2
        | (Threw e, w2) => (Rejected e, w2)
        end
    | (Rejected e, w1) => (Rejected e, w1)
    end.

(** [p.fail(h)] *)
Definition fail_ {A} (p : Async A) (h : JSError -> Sync (Async A)) : Async A :=
  fun w =>
    match p w with
    | (Fulfilled a, w1) => (Fulfilled a, w1)
    | (Rejected e, w1) =>
        match h e w1 with
        | (Returned q, w2) => q w2
        | (Threw e', w2) => (Rejected e', w2)
        end
    end.

(** [p.thenResolve(b)] *)
Definition thenResolve {A B} (p : Async A) (b : B) : Async B :=
  then_ p (fun _ => ret (resolved b)).

(** The promises of a list run one after the other; each yields its
    settled state. *)
Fixpoint run_all {A} (ps : list (Async A)) (w : World E)
  : list (Settled A) * World E :=
  match ps with
  | [] => ([], w)
  | p :: rest =>
      let (o, w1) := p w in
      let (os, w2) := run_all rest w1 in
      (o :: os, w2)
  end.

(** [Q.all]: fulfilled with all the values once every promise is
    fulfilled, rejected with the first rejection otherwise. *)
Fixpoint join {A} (os : list (Settled A)) : Settled (list A) :=
  match os with
  | [] => Fulfilled []
  | Rejected e :: _ => Rejected e
  | Fulfilled a :: rest =>
      match join rest with
      | Fulfilled l => Fulfilled (a :: l)
      | Rejected e => Rejected e
      end
  end.

Definition Q_all {A} (ps : list (Async A)) : Async (list A) :=
  fun w => let (os, w1) := run_all ps w in (join os, w1).

(** A call that hands back a promise, followed to the end. *)
Definition run {A} (c : Sync (Async A)) (w : World E)
  : Completion A * World E :=
  match c w with
  | (Returned p, w1) =>
      match p w1 with
      | (Fulfilled a, w2) => (Done a, w2)
      | (Rejected e, w2) => (Failed e, w2)
      end
  | (Threw e, w1) => (Raised e, w1)
  end.
End Effects.

Arguments ret {E A} a.
Arguments throw {E A} e.
Arguments bind {E A B} c k.
Arguments lift_exc {E A} c.
Arguments read {E A} f.
Arguments update {E} f.
Arguments call_st {E A} f.
Arguments trigger {E} ev.
Arguments console_error {E} e.
Arguments resolved {E A} a.
Arguments promise_of {E A} f.
Arguments then_ {E A B} p f.
Arguments fail_ {E A} p h.
Arguments thenResolve {E A B} p b.
Arguments run_all {E A} ps w.
Arguments Q_all {E A} ps.
Arguments run {E A} c w.

Notation "x <- c ;; k" := (bind c (fun x => k))
  (at level 61, c at next level, right associativity).
Notation "c ;;; k" := (bind c (fun _ => k))
  (at level 61, right associativity).

(** ** The module *)

(** What a save leaves behind: the value its promise is fulfilled with and
    the data object as the save left it ([saveModel] assigns to
    [data.value], and the caller still holds that object). *)
Definition Saved : Type := (JSValue * Obj)%type.

(** The batch handed to [saveObjects]: an array of entries, or entries
    already keyed by name. *)
Inductive Objects : Type :=
| AsArray (entries : list Obj)
| AsMap (entries : list (string * Obj)).

(** A keyed batch seen as one JavaScript object. *)
Definition as_object (objects : list (string * Obj)) : Obj :=
  map (fun ke => (fst ke, JObj (snd ke))) objects.

Definition encrSet : list string :=
  ["encrypt"; "encryptPass"; "encryptSalt";
   "encryptIter"; "encryptTag"; "encryptKeySize"].

(** [_.indexOf(encrSet, v) > -1] *)
Definition in_encrSet (v : JSValue) : bool :=
  match v with
  | JStr s => existsb (String.eqb s) encrSet
  | _ => false
  end.

(** The predicate [_getEncryption] filters with. *)
Definition is_encryption (value key : JSValue) : Exc bool :=
  key' <-! (if typeof_object value then get_member value "name"
            else Returned key) ;;
  Returned (in_encrSet key' || in_encrSet value).

(** [_getEncryption(collection)] *)
Definition _getEncryption (collection : Collection) : Exc (list JSValue) :=
  filter_ is_encryption (items collection).

Section Module.
Variable E : Env.

(** [this.collection.m(..)] throws when the collection is not set. *)
Definition the_collection : Sync E (Coll E) :=
  fun w =>
    match this_collection E (st w) with
    | Some c => (Returned c, w)
    | None => (Threw TypeError, w)
    end.

(** [_.bind(ModuleObject.prototype.saveModel, this)] *)
Definition saveFunc (model : Model E) (data : Obj) : Async E Saved :=
  then_ (promise_of (base_saveModel E model data))
        (fun r => ret (resolved (r, data))).

(** [saveModel(model, data)]: [model.isPassword] throws on a model that
    is undefined. *)
Definition saveModel (model : option (Model E)) (data : Obj)
  : Sync E (Async E Saved) :=
  match model with
  | None => throw TypeError
  | Some m =>
      isPassword <- read (model_isPassword E m data) ;;
      if negb isPassword then ret (saveFunc m data)
      else
        (* Always save passwords as sha256 *)
        ret (then_ (promise_of (encrypt_sha256 E (get_prop "value" data)))
                   (fun result =>
                      let data := set_prop "value" result data in
                      ret (saveFunc m data)))
  end.

(** [resetEncrypt()] *)
Definition resetEncrypt : Sync E (Async E Saved) :=
  c <- the_collection ;;
  model <- read (coll_get E c "encryptBackup") ;;
  saveModel model [("value", JObj [])].

(** [createProfile(model, name)] *)
Definition createProfile (model : Model E) (name : JSValue)
  : Sync E JSValue :=
  call_st (model_createProfile E model name).

(** [removeProfile(model, name)] *)
Definition removeProfile (model : Model E) (name : JSValue)
  : Sync E (Async E JSValue) :=
  ret (then_ (promise_of (model_removeProfile E model name))
             (fun _ =>
                trigger (Ev_removed_profile name) ;;;
                ret (resolved JUndefined))).

(** [getObject()] *)
Definition getObject : Sync E Obj :=
  c <- the_collection ;;
  read (coll_getConfigs E c).

(** [getConfig(name, defaultValue)] *)
Definition getConfig (name : string) (defaultValue : JSValue)
  : Sync E Read :=
  configs <- getObject ;;
  let config := get_any name configs in
  ret (if truthy_read config then config else Value defaultValue).

(** [getModel(options)]: the inherited lookup, then the built-in default. *)
Definition getModel (options : JSValue) : Async E (option (Model E)) :=
  let options :=
    match options with
    | JStr s => JObj [("name", JStr s)]
    | _ => options
    end in
  then_ (promise_of (base_getModel E options))
        (fun model =>
           match model with
           | Some m => ret (resolved (Some m))
           | None =>
               (* If a model doesn't exist, return default values *)
               collection <- call_st (base_changeDatabase_new E options) ;;
               name <- lift_exc (get_member options "name") ;;
               d <- read (coll_getDefault E collection name) ;;
               ret (resolved d)
           end).

(** [saveObject(object, useDefault)] *)
Definition saveObject (object : Obj) (useDefault : option (Model E))
  : Async E Saved :=
  then_ (getModel (JObj [("name", get_prop "name" object)]))
        (fun model =>
           match model with
           | None => ret (resolved (JUndefined, object))
           | Some m =>
               let model :=
                 if strict_eq_str (get_prop "name" object) "useDefaultConfigs"
                 then useDefault else Some m in
               saveModel model object
           end).

(** First callback of [getAll], up to the call of the inherited
    [getAll]: whether to use the configs of the default profile. *)
Definition resolveProfile (model : option (Model E)) (options : Obj)
  : Sync E Obj :=
  match model with
  | None => ret (set_prop "profile" JNull options)
  | Some m =>
      value <- read (model_get E m "value") ;;
      n <- lift_exc (number_truthy E value) ;;
      ret (if n then set_prop "profile" JNull options else options)
  end.

(** [_checkBackup(profile)] *)
Definition _checkBackup (profile : JSValue) : Async E (option (Model E)) :=
  then_ (getModel (JObj [("name", JStr "encryptBackup")]))
        (fun backup =>
           defaultDB <- read (this_defaultDB E) ;;
           if strict_eq_str profile defaultDB then ret (resolved None)
           else
             match backup with
             | None => ret (resolved None)
             | Some b =>
                 value <- read (model_get E b "value") ;;
                 if negb (isEmpty value) then ret (resolved None)
                 else
                   (* Fetch current profile's encryption backup configs *)
                   ret (then_
                          (getModel (JObj [("name", JStr "encryptBackup");
                                           ("profile", profile)]))
                          (fun model =>
                             match model with
                             | None => throw TypeError
                             | Some m =>
                                 value' <- read (model_get E m "value") ;;
                                 (if negb (isEmpty value') then
                                    json <- read (model_toJSON E m) ;;
                                    update (model_set E b json) ;;;
                                    update (model_changeDB E b profile)
                                  else ret tt) ;;;
                                 ret (resolved (Some m))
                             end))
             end).

(** [_createDefault(options)] *)
Definition _createDefault (options : Obj)
  : Sync E (Async E (option (Coll E))) :=
  c <- the_collection ;;
  hasNew <- read (coll_hasNewConfigs E c) ;;
  if negb hasNew then ret (resolved (Some c))
  else
    len <- read (coll_length E c) ;;
    (if Nat.eqb len 0 then trigger Ev_collection_empty else ret tt) ;;;
    ret (thenResolve
           (then_
              (then_ (promise_of (coll_migrateFromLocal E c))
                     (fun r => ret (promise_of (coll_createDefault E c r))))
              (fun _ =>
                 c' <- the_collection ;;
                 update (coll_trigger_reset_all E c') ;;;
                 ret (promise_of (base_getAll E options))))
           (Some c)).

(** The chain of [getAll] before its [.fail].  [options] is one object,
    assigned to by the first callback and read by the third: the
    callbacks hand it on. *)
Definition getAll_load (options : Obj) (profile : JSValue)
  : Async E (option (Coll E)) :=
  then_
    (then_
       (then_
          (getModel (JObj [("name", JStr "useDefaultConfigs");
                           ("profile", get_prop "profile" options)]))
          (fun model =>
             options' <- resolveProfile model options ;;
             ret (thenResolve (promise_of (base_getAll E options'))
                              options')))
       (fun options' => ret (thenResolve (_checkBackup profile) options')))
    (fun options' => _createDefault options').

(** [this.collection && this.collection.length] *)
Definition cached (s : St E) : option (Coll E) :=
  match this_collection E s with
  | Some c => if Nat.eqb (coll_length E c s) 0 then None else Some c
  | None => None
  end.

(** [options.profile || this.defaultDB] *)
Definition profile_or_default (options : Obj) (defaultDB : string) : JSValue :=
  if truthy (get_prop "profile" options)
  then get_prop "profile" options else JStr defaultDB.

(** [getAll(options)] *)
Definition getAll (options : Obj) : Sync E (Async E (option (Coll E))) :=
  hit <- read cached ;;
  match hit with
  | Some c => ret (resolved (Some c))
  | None =>
      defaultDB <- read (this_defaultDB E) ;;
      let profile := profile_or_default options defaultDB in
      ret (fail_ (getAll_load options profile)
                 (fun e => console_error e ;;; ret (resolved None)))
  end.

(** [_backupEncrypt(profile)] *)
Definition _backupEncrypt (profile : JSValue) : Sync E (Async E Saved) :=
  c <- the_collection ;;
  names <- read (coll_pluck_name E c) ;;
  encrypt <- lift_exc (_getEncryption (ArrayOf names)) ;;
  model <- read (coll_get E c "encryptBackup") ;;
  match model with
  | None => throw TypeError
  | Some m =>
      update (model_changeDB E m profile) ;;;
      configs <- getObject ;;
      value <- lift_exc (pick E configs encrypt) ;;
      saveModel (Some m) [("value", JObj value)]
  end.

(** The values to back up: the current configs under the changed names,
    the password set to null when the incoming one is the same text. *)
Definition snapshot (configs : Obj) (objects : list (string * Obj))
  (changed : list JSValue) : Exc Obj :=
  picked <-! pick E configs changed ;;
  match get_own "encryptPass" objects with
  | Some entry =>
      current <-! toString E (get_prop "encryptPass" configs) ;;
      incoming <-! toString E (get_prop "value" entry) ;;
      Returned (if String.eqb current incoming
                then set_prop "encryptPass" JNull picked
                else picked)
  | None => Returned picked
  end.

(** [_backupEncryption(objects)]: the batch it leaves. *)
Definition _backupEncryption (objects : list (string * Obj))
  : Sync E (list (string * Obj)) :=
  encryption <- lift_exc (_getEncryption (ObjectOf (as_object objects))) ;;
  match pluck "name" encryption with
  | [] => ret objects    (* Encryption configs have not changed *)
  | changed =>
      configs <- getObject ;;
      changed' <- lift_exc (snapshot configs objects changed) ;;
      ret (set_prop "encryptBackup"
             [("name", JStr "encryptBackup");
              ("value", JObj (extend [] (JObj changed')
                                     (get_prop "encryptBackup" configs)))]
             objects)
  end.

(** The batch as the [changed] event sees it: every entry as its save
    left it. *)
Fixpoint saved_batch (objects : list (string * Obj))
  (visited : list (string * Obj)) (results : list Saved)
  : list (string * Obj) :=
  match visited, results with
  | (k, _) :: visited', r :: results' =>
      saved_batch (set_prop k (snd r) objects) visited' results'
  | _, _ => objects
  end.

(** The synchronous part of [saveObjects]: the batch keyed by name with
    its backup entry, and the promises pushed, first the one of
    [_backupEncrypt] if any, then one per entry.  The inherited
    [saveModel] and [getModel] these promises begin with are started by
    the module during this part; here they take their step when the
    promise runs, so the world this part ends in is the model's, not
    something the module can observe. *)
Definition saveObjects_start (objects : Objects)
  (useDefault : option (Model E))
  : Sync E (list (string * Obj) * list (Async E Saved)
            * list (Async E Saved)) :=
  backup <-
    match objects with
    | AsMap m =>
        match get_own "useDefaultConfigs" m with
        | Some _ =>
            match useDefault with
            | None => throw TypeError
            | Some u =>
                id <- read (model_database_id E u) ;;
                p <- _backupEncrypt id ;;
                ret [p]
            end
        | None => ret []
        end
    | AsArray _ => ret []
    end ;;
  keyed <- lift_exc match objects with
                    | AsArray l => indexBy_name E [] l
                    | AsMap m => Returned m
                    end ;;
  objects' <- _backupEncryption keyed ;;
  ret (objects', backup,
       map (fun kv => saveObject (snd kv) useDefault) (own_entries objects')).

(** [saveObjects(objects, useDefault)] *)
Definition saveObjects (objects : Objects) (useDefault : option (Model E))
  : Sync E (Async E JSValue) :=
  started <- saveObjects_start objects useDefault ;;
  let '(objects', backup, saves) := started in
  ret (then_ (Q_all (backup ++ saves))
             (fun results =>
                trigger (Ev_changed
                           (saved_batch objects' (own_entries objects')
                              (skipn (List.length backup) results))) ;;;
                ret (resolved JUndefined))).
End Module.

Arguments the_collection {E}.
Arguments getObject {E}.

(** ** The module, continued: the list of profiles *)

(** What [getProfiles] needs besides: the [database] objects of
    collections and models, the value of [appProfiles] as Underscore
    iterates it, and whether a string converts to the number 1. *)
Record ProfilesEnv : Type := {
  profiles_env :> Env;
  StringToNumber_is_1 : string -> bool;     (* Number(s) === 1 *)
  coll_database : Coll profiles_env -> St profiles_env -> JSValue;
  model_database : Model profiles_env -> St profiles_env -> JSValue;
  model_getValueJSON : Model profiles_env -> St profiles_env -> Collection
}.

Section Profiles.
Variable P : ProfilesEnv.

(** [Number(v) === 1] *)
Definition number_is_1 (v : JSValue) : Exc bool :=
  match v with
  | JUndefined | JNull | JNaN => Returned false
  | JBool b => Returned b
  | JNum n => Returned (Z.eqb n 1)
  | JStr s => Returned (StringToNumber_is_1 P s)
  | JObj o =>
      match get_own "toString" o with
      | None => Returned false
      | Some _ => Threw TypeError
      end
  end.

(** The predicate [_getDefaultProfiles] filters the fetched models with:
    the flag is 1, or the model lives in the default database. *)
Definition uses_default (profile : option (Model P)) : Sync P bool :=
  match profile with
  | None => throw TypeError
  | Some m =>
      value <- read (model_get P m "value") ;;
      one <- lift_exc (number_is_1 value) ;;
      if one then ret true
      else
        database <- read (model_database P m) ;;
        id <- lift_exc (get_member database "id") ;;
        defaultDB <- read (this_defaultDB P) ;;
        ret (strict_eq_str id defaultDB)
  end.

(** [_.filter(profiles, ..)] on the fetched models. *)
Fixpoint filter_profiles (profiles : list (option (Model P)))
  : Sync P (list (option (Model P))) :=
  match profiles with
  | [] => ret []
  | profile :: rest =>
      keep <- uses_default profile ;;
      kept <- filter_profiles rest ;;
      ret (if keep then profile :: kept else kept)
  end.

(** [_.pluck(profiles, 'database')] *)
Definition pluck_database (profiles : list (option (Model P)))
  : Sync P (list JSValue) :=
  read (fun s => map (fun profile => match profile with
                                     | Some m => model_database P m s
                                     | None => JUndefined
                                     end) profiles).

(** The [useDefaultConfigs] lookups [_getDefaultProfiles] starts, one per
    listed profile. *)
Definition flag_lookups (profiles : Collection)
  : list (Async P (option (Model P))) :=
  map (fun item => getModel P (JObj [("name", JStr "useDefaultConfigs");
                                     ("profile", fst item)]))
      (items profiles).

(** [_getDefaultProfiles(model)] *)
Definition _getDefaultProfiles (model : option (Model P))
  : Sync P (Async P (list JSValue)) :=
  match model with
  | None => throw TypeError
  | Some m =>
      profiles <- read (model_getValueJSON P m) ;;
      ret (then_ (Q_all (flag_lookups profiles))
                 (fun fetched =>
                    kept <- filter_profiles fetched ;;
                    databases <- pluck_database kept ;;
                    ret (resolved databases)))
  end.

(** [getProfiles()] *)
Definition getProfiles : Sync P (Async P (list JSValue)) :=
  c <- @the_collection P ;;
  database <- read (coll_database P c) ;;
  current <- lift_exc (get_member database "id") ;;
  backup <- read (coll_get P c "encryptBackup") ;;
  defaultDB <- read (this_defaultDB P) ;;
  (* If it is not the default profile, return only current profile *)
  alone <-
    (if negb (strict_eq_str current defaultDB) then ret true
     else
       match backup with
       | None => throw TypeError
       | Some b =>
           database <- read (model_database P b) ;;
           id <- lift_exc (get_member database "id") ;;
           ret (negb (strict_eq_str id defaultDB))
       end) ;;
  if alone then
    match backup with
    | None => throw TypeError
    | Some b =>
        database <- read (model_database P b) ;;
        ret (resolved [database])
    end
  else
    ret (then_ (getModel P (JObj [("name", JStr "appProfiles")]))
               _getDefaultProfiles).
End Profiles.

(** ** Vocabulary of the statements *)

Definition is_fulfilled {A} (o : Settled A) : bool :=
  match o with
  | Fulfilled _ => true
  | Rejected _ => false
  end.

(** Two worlds with the same announcements and the same console. *)
Definition same_output {E} (w w' : World E) : Prop :=
  events w' = events w /\ console w' = console w.

(** A promise that announces nothing and prints nothing while it runs. *)
Definition silent {E A} (p : Async E A) : Prop :=
  forall w, same_output w (snd (p w)).

(** A call whose synchronous part and whose promise are both silent. *)
Definition silent_call {E A} (c : Sync E (Async E A)) : Prop :=
  forall w,
    same_output w (snd (c w)) /\
    match fst (c w) with
    | Returned p => silent p
    | Threw _ => True
    end.

(** The config [name] is in no store and has no built-in default:
    the inherited [getModel] finds nothing and [getDefault] has nothing. *)
Definition no_model (E : Env) (name : JSValue) : Prop :=
  forall s, exists s1 c s2,
    base_getModel E (JObj [("name", name)]) s = (Fulfilled None, s1) /\
    base_changeDatabase_new E (JObj [("name", name)]) s1 = (c, s2) /\
    coll_getDefault E c name s2 = None.

(** The entry's name is one of the encryption configs. *)
Definition names_encryption (entry : Obj) : bool :=
  in_encrSet (get_prop "name" entry).

(** A synchronous computation that announces nothing and prints nothing. *)
Definition quiet {E A} (c : Sync E A) : Prop :=
  forall w, same_output w (snd (c w)).

(** The second world has announced nothing more than the first, or
    [collection:empty] once. *)
Definition at_most_collection_empty {E} (w w' : World E) : Prop :=
  events w' = events w \/ events w' = (events w ++ [Ev_collection_empty])%list.


(** The fetched model belongs in the list of profiles: its flag is the
    number 1, or it lives in the default database. *)
Definition listed (P : ProfilesEnv) (s : St P) (m : Model P) : bool :=
  match number_is_1 P (model_get P m "value" s) with
  | Returned true => true
  | _ =>
      match get_member (model_database P m s) "id" with
      | Returned id => strict_eq_str id (this_defaultDB P s)
      | Threw _ => false
      end
  end.
(** ** A concrete environment

    One profile held in memory: the state is the collection's configs, a
    model is a config's name with its value.  Reading the profile
    [offline] and writing the config [readonly] fail; only the profile
    [work] can be removed. *)

Module Demo.

Definition State : Type := Obj.
Definition ConfigModel : Type := (string * JSValue)%type.

(** collections/configs.js, [configNames] *)
Definition configNames : Obj :=
  [("useDefaultConfigs", JNum 1); ("encrypt", JNum 0);
   ("encryptPass", JStr ""); ("encryptBackup", JObj []);
   ("theme", JStr "default"); ("readonly", JStr "")].

(** Numbers and strings of decimal digits are all this environment
    converts: [Number(s)] counts as NaN for every other string. *)
Definition is_digit (c : Ascii.ascii) : bool :=
  let n := Ascii.nat_of_ascii c in Nat.leb 48 n && Nat.leb n 57.

Fixpoint all_digits (s : string) : bool :=
  match s with
  | EmptyString => true
  | String c rest => is_digit c && all_digits rest
  end.

Fixpoint some_nonzero (s : string) : bool :=
  match s with
  | EmptyString => false
  | String c rest => negb (Ascii.eqb c "0"%char) || some_nonzero rest
  end.

Fixpoint digits (fuel : nat) (n : Z) (acc : string) : string :=
  match fuel with
  | O => acc
  | S fuel' =>
      let d := Ascii.ascii_of_nat (48 + Z.to_nat (n mod 10)) in
      if Z.ltb n 10 then String d acc
      else digits fuel' (n / 10) (String d acc)
  end.

Definition decimal (n : Z) : string :=
  if Z.ltb n 0 then String "-"%char (digits (Z.to_nat (- n)) (- n) "")
  else digits (S (Z.to_nat n)) n "".

Definition name_of (options : JSValue) : option string :=
  match options with
  | JObj o => match get_prop "name" o with
              | JStr n => Some n
              | _ => None
              end
  | _ => None
  end.

Definition offline (options : JSValue) : bool :=
  match options with
  | JObj o => strict_eq_str (get_prop "profile" o) "offline"
  | _ => false
  end.

Definition find_model (configs : Obj) (name : JSValue) : option ConfigModel :=
  match name with
  | JStr n => match get_own n configs with
              | Some v => Some (n, v)
              | None => None
              end
  | _ => None
  end.

(** The store holds configs of the known names only. *)
Definition known (n : string) : bool :=
  existsb (String.eqb n) (map fst configNames).

Definition getModel (options : JSValue) (s : State)
  : Settled (option ConfigModel) * State :=
  if offline options then (Rejected (Failure (JStr "offline")), s)
  else
    match name_of options with
    | Some n =>
        if known n then (Fulfilled (find_model s (JStr n)), s)
        else (Fulfilled None, s)
    | None => (Fulfilled None, s)
    end.

Definition saveModel (m : ConfigModel) (data : Obj) (s : State)
  : Settled JSValue * State :=
  if String.eqb (fst m) "readonly"
  then (Rejected (Failure (JStr "readonly")), s)
  else (Fulfilled JUndefined, set_prop (fst m) (get_prop "value" data) s).

Definition createDefault (s : State) : State :=
  fold_left (fun acc kv => match get_own (fst kv) acc with
                           | Some _ => acc
                           | None => set_prop (fst kv) (snd kv) acc
                           end) configNames s.

Definition sha256 (v : JSValue) : JSValue :=
  match v with
  | JStr t => JStr ("sha256:" ++ t)
  | _ => JStr "sha256:"
  end.

Definition removeProfile (name : JSValue) (s : State)
  : Settled JSValue * State :=
  if strict_eq_str name "work" then (Fulfilled JUndefined, s)
  else (Rejected (Failure name), s).

Definition env : Env := {|
  Number_toString := decimal;
  StringToNumber_truthy := fun s => all_digits s && some_nonzero s;
  St := State;
  Model := ConfigModel;
  Coll := unit;
  this_collection := fun _ => Some tt;
  this_defaultDB := fun _ => "notes-db";
  coll_length := fun _ s => List.length s;
  coll_get := fun _ n s => find_model s (JStr n);
  coll_pluck_name := fun _ s => map (fun kv => JStr (fst kv)) s;
  coll_getConfigs := fun _ s => s;
  coll_getDefault := fun _ n _ => find_model configNames n;
  coll_hasNewConfigs :=
    fun _ s => negb (Nat.eqb (List.length configNames) (List.length s));
  coll_migrateFromLocal := fun _ s => (Fulfilled JUndefined, s);
  coll_createDefault := fun _ _ s => (Fulfilled JUndefined, createDefault s);
  coll_trigger_reset_all := fun _ s => s;
  base_getModel := getModel;
  base_getAll := fun _ s => (Fulfilled JUndefined, s);
  base_saveModel := saveModel;
  base_changeDatabase_new := fun _ s => (tt, s);
  model_get := fun m k _ => if String.eqb k "value" then snd m
                            else if String.eqb k "name" then JStr (fst m)
                            else JUndefined;
  model_toJSON := fun m _ => JObj [("name", JStr (fst m)); ("value", snd m)];
  model_set := fun _ _ s => s;
  model_changeDB := fun _ _ s => s;
  model_isPassword := fun m _ _ => String.eqb (fst m) "encryptPass";
  model_database_id := fun _ _ => JStr "notes-db";
  model_createProfile := fun _ _ s => (JUndefined, s);
  model_removeProfile := fun _ name s => removeProfile name s;
  encrypt_sha256 := fun v s => (Fulfilled (sha256 v), s)
|}.

Definition world (s : State) : World env := mkWorld (s : St env) [] [].

(** Configs in store: encryption off, a password, and a backup that
    already remembers [encrypt]. *)
Definition stored : State :=
  [("useDefaultConfigs", JNum 1); ("encrypt", JNum 0);
   ("encryptPass", JStr "pw"); ("encryptBackup", JObj [("encrypt", JNum 1)]);
   ("theme", JStr "default")].

Definition entry (name : string) (value : JSValue) : Obj :=
  [("name", JStr name); ("value", value)].

End Demo.

(** ** A concrete environment with several profiles

    The state maps each database to its configs; a model is a config with
    the database it lives in.  The value of [appProfiles] is held as an
    array-like object.  Reading the profile [offline] fails. *)

Module Profiles.

Definition State : Type := list (string * Obj).
Definition ConfigModel : Type := (string * (string * JSValue))%type.

Definition defaultDB : string := "notes-db".

(** Built-in defaults of the configs every profile has. *)
Definition defaults : Obj :=
  [("useDefaultConfigs", JNum 1); ("encryptBackup", JObj [])].

Definition database_of (options : JSValue) : string :=
  match options with
  | JObj o => match get_prop "profile" o with
              | JStr p => p
              | _ => defaultDB
              end
  | _ => defaultDB
  end.

Definition name_of (options : JSValue) : JSValue :=
  match options with
  | JObj o => get_prop "name" o
  | _ => JUndefined
  end.

Definition configs_of (db : string) (s : State) : Obj :=
  match get_own db s with
  | Some o => o
  | None => []
  end.

Definition find_model (db : string) (name : JSValue) (configs : Obj)
  : option ConfigModel :=
  match name with
  | JStr n => match get_own n configs with
              | Some v => Some (db, (n, v))
              | None => None
              end
  | _ => None
  end.

Definition getModel (options : JSValue) (s : State)
  : Settled (option ConfigModel) * State :=
  let db := database_of options in
  if String.eqb db "offline" then (Rejected (Failure (JStr "offline")), s)
  else (Fulfilled (find_model db (name_of options) (configs_of db s)), s).

Definition array_like (v : JSValue) : Collection :=
  match v with
  | JObj o => ArrayOf (map snd o)
  | _ => ArrayOf []
  end.

Definition env (current : string) : Env := {|
  Number_toString := Demo.decimal;
  StringToNumber_truthy :=
    fun s => Demo.all_digits s && Demo.some_nonzero s;
  St := State;
  Model := ConfigModel;
  Coll := string;
  this_collection := fun _ => Some current;
  this_defaultDB := fun _ => defaultDB;
  coll_length := fun c s => List.length (configs_of c s);
  coll_get := fun c n s => find_model c (JStr n) (configs_of c s);
  coll_pluck_name := fun c s => map (fun kv => JStr (fst kv)) (configs_of c s);
  coll_getConfigs := fun c s => configs_of c s;
  coll_getDefault := fun c n _ => find_model c n defaults;
  coll_hasNewConfigs := fun _ _ => false;
  coll_migrateFromLocal := fun _ s => (Fulfilled JUndefined, s);
  coll_createDefault := fun _ _ s => (Fulfilled JUndefined, s);
  coll_trigger_reset_all := fun _ s => s;
  base_getModel := getModel;
  base_getAll := fun _ s => (Fulfilled JUndefined, s);
  base_saveModel := fun _ _ s => (Fulfilled JUndefined, s);
  base_changeDatabase_new := fun options s => (database_of options, s);
  model_get := fun m k _ => if String.eqb k "value" then snd (snd m)
                            else if String.eqb k "name" then JStr (fst (snd m))
                            else JUndefined;
  model_toJSON := fun m _ => JObj [("name", JStr (fst (snd m)));
                                   ("value", snd (snd m))];
  model_set := fun _ _ s => s;
  model_changeDB := fun _ _ s => s;
  model_isPassword := fun _ _ _ => false;
  model_database_id := fun m _ => JStr (fst m);
  model_createProfile := fun _ _ s => (JUndefined, s);
  model_removeProfile := fun _ _ s => (Fulfilled JUndefined, s);
  encrypt_sha256 := fun v s => (Fulfilled v, s)
|}.

Definition database (id : string) : JSValue := JObj [("id", JStr id)].

Definition penv (current : string) : ProfilesEnv := {|
  profiles_env := env current;
  StringToNumber_is_1 := fun s => String.eqb s "1";
  coll_database := fun c _ => database c;
  model_database := fun m _ => database (fst m);
  model_getValueJSON := fun m _ => array_like (snd (snd m))
|}.

Definition world (current : string) (s : State) : World (penv current) :=
  mkWorld (s : St (penv current)) [] [].

(** Three profiles: [work] keeps configs of its own, [travel] uses those
    of the default profile. *)
Definition stored : State :=
  [("notes-db",
    [("appProfiles",
      JObj [("0", JStr "notes-db"); ("1", JStr "work");
            ("2", JStr "travel")]);
     ("encryptBackup", JObj []);
     ("useDefaultConfigs", JNum 1)]);
   ("work", [("useDefaultConfigs", JNum 0); ("encryptBackup", JObj [])]);
   ("travel", [("useDefaultConfigs", JStr "1")])].

End Profiles.

(** * Properties *)

(** ** Property lists *)

Lemma get_own_set_prop {V} (k k' : string) (v : V) (o : list (string * V)) :
  get_own k (set_prop k' v o) = if String.eqb k k' then Some v else get_own k o.
Proof.
  induction o as [|[k0 v0] o IH]; simpl.
  - destruct (String.eqb k k'); reflexivity.
  - destruct (String.eqb_spec k' k0) as [->|Hne]; simpl.
    + destruct (String.eqb k k0); reflexivity.
    + rewrite IH.
      destruct (String.eqb_spec k k0) as [->|Hne'].
      * destruct (String.eqb_spec k0 k'); congruence.
      * reflexivity.
Qed.

Lemma get_own_In_fst {V} (k : string) (o : list (string * V)) :
  In k (map fst o) <-> get_own k o <> None.
Proof.
  induction o as [|[k0 v0] o IH]; simpl.
  - split; [tauto | congruence].
  - destruct (String.eqb_spec k k0) as [->|Hne].
    + split; [congruence | auto].
    + rewrite <- IH. split; [intros [H|H]; congruence || exact H | auto].
Qed.

Lemma keys_In {V} (k : string) (o : list (string * V)) :
  In k (keys o) <-> get_own k o <> None.
Proof.
  unfold keys. rewrite nodup_In. apply get_own_In_fst.
Qed.

Lemma set_prop_keeps_keys {V} (k : string) (v : V) (o : list (string * V)) :
  In k (map fst o) -> map fst (set_prop k v o) = map fst o.
Proof.
  induction o as [|[k0 v0] o IH]; simpl; [tauto|].
  intros H. destruct (String.eqb_spec k k0) as [->|Hne]; simpl.
  - reflexivity.
  - f_equal. apply IH. destruct H; congruence.
Qed.

Lemma own_entries_spec {V} (k : string) (v : V) (o : list (string * V)) :
  In (k, v) (own_entries o) <-> get_own k o = Some v.
Proof.
  unfold own_entries. rewrite in_flat_map. split.
  - intros [k' [_ H]]. destruct (get_own k' o) eqn:G; simpl in H; [|tauto].
    destruct H as [H|[]]. congruence.
  - intros G. exists k. split.
    + apply keys_In. congruence.
    + rewrite G. simpl. auto.
Qed.

Lemma own_entries_map {V W} (f : V -> W) (o : list (string * V)) :
  own_entries (map (fun kv => (fst kv, f (snd kv))) o)
  = map (fun kv => (fst kv, f (snd kv))) (own_entries o).
Proof.
  assert (G : forall k, get_own k (map (fun kv => (fst kv, f (snd kv))) o)
                        = option_map f (get_own k o)).
  { intros k. induction o as [|[k0 v0] o IH]; simpl; [reflexivity|].
    destruct (String.eqb k k0); [reflexivity | exact IH]. }
  unfold own_entries, keys. rewrite map_map. simpl.
  induction (nodup string_dec (map fst o)) as [|k ks IH]; simpl; [reflexivity|].
  rewrite map_app, IH, G. destruct (get_own k o); reflexivity.
Qed.

(** ** [_.extend]: the source's own properties win *)

Lemma get_own_assign (src : Obj) (k : string) (ks : list string) (t : Obj) :
  get_own k (fold_left (fun acc k' => set_prop k' (get_prop k' src) acc) ks t)
  = if in_dec string_dec k ks then Some (get_prop k src) else get_own k t.
Proof.
  revert t. induction ks as [|a ks IH]; intros t; simpl; [reflexivity|].
  rewrite IH, get_own_set_prop.
  destruct (in_dec string_dec k ks) as [Hin|Hout].
  - destruct (string_dec a k); reflexivity.
  - destruct (string_dec a k) as [->|Hne].
    + rewrite String.eqb_refl. reflexivity.
    + destruct (String.eqb_spec k a); congruence.
Qed.

Lemma get_own_extend1 (k : string) (t : Obj) (s : JSValue) :
  get_own k (extend1 t s)
  = match get_own k (own_props s) with
    | Some v => Some v
    | None => get_own k t
    end.
Proof.
  unfold extend1. rewrite get_own_assign.
  destruct (in_dec string_dec k (keys (own_props s))) as [Hin|Hout].
  - apply keys_In in Hin. unfold get_prop.
    destruct (get_own k (own_props s)); congruence.
  - destruct (get_own k (own_props s)) eqn:G; [|reflexivity].
    exfalso. apply Hout, keys_In. congruence.
Qed.

Lemma get_own_extend (k : string) (t : Obj) (s1 s2 : JSValue) :
  get_own k (extend t s1 s2)
  = match get_own k (own_props s2) with
    | Some v => Some v
    | None => match get_own k (own_props s1) with
              | Some v => Some v
              | None => get_own k t
              end
    end.
Proof.
  unfold extend. rewrite !get_own_extend1. reflexivity.
Qed.

(** ** Which entries [_getEncryption] selects *)

Lemma is_encryption_cases (value key : JSValue) :
  is_encryption value key
  = match value with
    | JNull => Threw TypeError
    | JObj o => Returned (in_encrSet (get_prop "name" o))
    | _ => Returned (in_encrSet key || in_encrSet value)
    end.
Proof.
  destruct value; try reflexivity.
  unfold is_encryption, typeof_object, get_member, exc_bind.
  cbn [in_encrSet]. rewrite orb_false_r. reflexivity.
Qed.

Lemma filter_entries (l : list (string * Obj)) :
  filter_ is_encryption
    (map (fun kv => (snd kv, JStr (fst kv)))
         (map (fun kv => (fst kv, JObj (snd kv))) l))
  = Returned (map (fun kv => JObj (snd kv))
                  (filter (fun kv => names_encryption (snd kv)) l)).
Proof.
  induction l as [|[k entry] l IH]; [reflexivity|].
  cbn [map filter filter_ fst snd]. rewrite is_encryption_cases, IH.
  unfold names_encryption.
  destruct (in_encrSet (get_prop "name" entry)); reflexivity.
Qed.

Lemma getEncryption_entries (objects : list (string * Obj)) :
  _getEncryption (ObjectOf (as_object objects))
  = Returned (map (fun kv => JObj (snd kv))
                  (filter (fun kv => names_encryption (snd kv))
                          (own_entries objects))).
Proof.
  unfold _getEncryption, items, as_object.
  rewrite (own_entries_map JObj). apply filter_entries.
Qed.

Lemma pluck_entries (l : list (string * Obj)) :
  pluck "name" (map (fun kv => JObj (snd kv)) l)
  = map (fun kv => get_prop "name" (snd kv)) l.
Proof.
  unfold pluck. rewrite map_map. reflexivity.
Qed.

Lemma in_encrSet_string (v : JSValue) :
  in_encrSet v = true -> exists s, v = JStr s.
Proof.
  destruct v; simpl; try discriminate. eauto.
Qed.

Lemma changed_names_are_strings (objects : list (string * Obj)) :
  Forall (fun k => exists s, k = JStr s)
         (map (fun kv => get_prop "name" (snd kv))
              (filter (fun kv => names_encryption (snd kv))
                      (own_entries objects))).
Proof.
  apply Forall_forall. intros k Hk.
  apply in_map_iff in Hk. destruct Hk as [kv [<- Hkv]].
  apply filter_In in Hkv. destruct Hkv as [_ Hkv].
  apply in_encrSet_string. exact Hkv.
Qed.

Lemma pick_into_strings (E : Env) (ks : list JSValue) :
  Forall (fun k => exists s, k = JStr s) ks ->
  forall result obj, exists r, pick_into E result obj ks = Returned r.
Proof.
  induction 1 as [|k ks [s ->] _ IH]; intros result obj; simpl.
  - eauto.
  - destruct (get_own s obj); apply IH.
Qed.

(** ** [_backupEncryption], step by step *)

Lemma backupEncryption_steps (E : Env) (objects : list (string * Obj))
  (w : World E) :
  _backupEncryption E objects w
  = match _getEncryption (ObjectOf (as_object objects)) with
    | Threw e => (Threw e, w)
    | Returned encryption =>
        match pluck "name" encryption with
        | [] => (Returned objects, w)
        | changed =>
            match this_collection E (st w) with
            | None => (Threw TypeError, w)
            | Some c =>
                let configs := coll_getConfigs E c (st w) in
                match snapshot E configs objects changed with
                | Threw e => (Threw e, w)
                | Returned changed' =>
                    (Returned
                       (set_prop "encryptBackup"
                          [("name", JStr "encryptBackup");
                           ("value",
                            JObj (extend [] (JObj changed')
                                    (get_prop "encryptBackup" configs)))]
                          objects), w)
                end
            end
        end
    end.
Proof.
  unfold _backupEncryption, bind, lift_exc.
  destruct (_getEncryption (ObjectOf (as_object objects))) as [enc|e];
    [|reflexivity].
  destruct (pluck "name" enc) as [|n ns]; [reflexivity|].
  unfold getObject, the_collection, bind, read, ret.
  destruct (this_collection E (st w)) as [c|]; [|reflexivity].
  destruct (snapshot E (coll_getConfigs E c (st w)) objects (n :: ns));
    reflexivity.
Qed.

(** ** Where [getAll] uses the resolved options *)

Lemma getAll_load_after_resolution (E : Env) (options options' : Obj)
  (profile : JSValue) (model : option (Model E)) (w w1 w2 : World E) :
  getModel E (JObj [("name", JStr "useDefaultConfigs");
                    ("profile", get_prop "profile" options)]) w
  = (Fulfilled model, w1) ->
  resolveProfile E model options w1 = (Returned options', w2) ->
  getAll_load E options profile w
  = then_
      (then_ (thenResolve (promise_of (base_getAll E options')) options')
             (fun o => ret (thenResolve (_checkBackup E profile) o)))
      (fun o => _createDefault E o) w2.
Proof.
  intros Hmodel Hresolve.
  unfold getAll_load.
  unfold then_ at 1 2 3. rewrite Hmodel.
  unfold bind at 1. rewrite Hresolve.
  reflexivity.
Qed.

(** ** Silence: what neither announces an event nor prints *)

Create HintDb silence.

Lemma same_output_refl {E} (w : World E) : same_output w w.
Proof. split; reflexivity. Qed.

Lemma same_output_trans {E} (w1 w2 w3 : World E) :
  same_output w1 w2 -> same_output w2 w3 -> same_output w1 w3.
Proof. intros [H1 H2] [H3 H4]. split; congruence. Qed.

Lemma same_output_with_st {E} (w : World E) (s : St E) :
  same_output w (with_st E w s).
Proof. split; reflexivity. Qed.

Lemma quiet_ret {E A} (a : A) : quiet (@ret E A a).
Proof. intros w. apply same_output_refl. Qed.

Lemma quiet_throw {E A} (e : JSError) : quiet (@throw E A e).
Proof. intros w. apply same_output_refl. Qed.

Lemma quiet_lift_exc {E A} (c : Exc A) : quiet (@lift_exc E A c).
Proof. intros w. apply same_output_refl. Qed.

Lemma quiet_read {E A} (f : St E -> A) : quiet (read f).
Proof. intros w. apply same_output_refl. Qed.

Lemma quiet_update {E} (f : St E -> St E) : quiet (update f).
Proof. intros w. apply same_output_with_st. Qed.

Lemma quiet_call_st {E A} (f : St E -> A * St E) : quiet (call_st f).
Proof.
  intros w. unfold call_st. destruct (f (st w)). apply same_output_with_st.
Qed.

Lemma quiet_the_collection {E} : quiet (@the_collection E).
Proof.
  intros w. unfold the_collection.
  destruct (this_collection E (st w)); apply same_output_refl.
Qed.

Lemma quiet_bind {E A B} (c : Sync E A) (k : A -> Sync E B) :
  quiet c -> (forall a, quiet (k a)) -> quiet (bind c k).
Proof.
  intros Hc Hk w. unfold bind. specialize (Hc w).
  destruct (c w) as [[a|e] w1]; simpl in Hc; [|exact Hc].
  eapply same_output_trans; [exact Hc | apply Hk].
Qed.

Lemma quiet_getObject {E} : quiet (@getObject E).
Proof.
  apply quiet_bind; [apply quiet_the_collection | intros c; apply quiet_read].
Qed.

#[local] Hint Resolve quiet_ret quiet_throw quiet_lift_exc quiet_read
  quiet_update quiet_call_st quiet_the_collection quiet_getObject : silence.

Lemma silent_resolved {E A} (a : A) : silent (@resolved E A a).
Proof. intros w. apply same_output_refl. Qed.

Lemma silent_promise_of {E A} (f : St E -> Settled A * St E) :
  silent (promise_of f).
Proof.
  intros w. unfold promise_of. destruct (f (st w)). apply same_output_with_st.
Qed.

Lemma silent_call_ret {E A} (p : Async E A) : silent p -> silent_call (ret p).
Proof. intros Hp w. split; [apply same_output_refl | exact Hp]. Qed.

Lemma silent_call_throw {E A} (e : JSError) :
  silent_call (@throw E (Async E A) e).
Proof. intros w. split; [apply same_output_refl | exact I]. Qed.

Lemma silent_call_bind {E A B} (c : Sync E A) (k : A -> Sync E (Async E B)) :
  quiet c -> (forall a, silent_call (k a)) -> silent_call (bind c k).
Proof.
  intros Hc Hk w. unfold bind. specialize (Hc w).
  destruct (c w) as [[a|e] w1]; simpl in Hc.
  - destruct (Hk a w1) as [H1 H2]. split; [|exact H2].
    eapply same_output_trans; eassumption.
  - split; [exact Hc | exact I].
Qed.

Lemma silent_then {E A B} (p : Async E A) (f : A -> Sync E (Async E B)) :
  silent p -> (forall a, silent_call (f a)) -> silent (then_ p f).
Proof.
  intros Hp Hf w. unfold then_. specialize (Hp w).
  destruct (p w) as [[a|e] w1]; simpl in Hp; [|exact Hp].
  destruct (Hf a w1) as [H1 H2].
  destruct (f a w1) as [[q|e] w2]; simpl in H1, H2 |- *.
  - eapply same_output_trans; [exact Hp|].
    eapply same_output_trans; [exact H1 | apply H2].
  - eapply same_output_trans; eassumption.
Qed.

#[local] Hint Resolve silent_resolved silent_promise_of silent_call_ret
  silent_call_throw : silence.

(** One synchronous step of a call, then the rest of it. *)
Ltac silent_step :=
  apply silent_call_bind; [auto with silence | intros ?].

Lemma silent_saveFunc (E : Env) (model : Model E) (data : Obj) :
  silent (saveFunc E model data).
Proof.
  apply silent_then; auto with silence.
Qed.

Lemma silent_call_saveModel (E : Env) (model : option (Model E)) (data : Obj) :
  silent_call (saveModel E model data).
Proof.
  destruct model as [m|]; simpl; [|apply silent_call_throw].
  apply silent_call_bind; [auto with silence | intros isPassword].
  destruct isPassword; simpl.
  - apply silent_call_ret, silent_then; [auto with silence|].
    intros result. apply silent_call_ret, silent_saveFunc.
  - apply silent_call_ret, silent_saveFunc.
Qed.

Lemma silent_getModel (E : Env) (options : JSValue) :
  silent (getModel E options).
Proof.
  apply silent_then; [auto with silence|].
  intros [m|]; [auto with silence|].
  do 3 silent_step.
  auto with silence.
Qed.

Lemma silent_saveObject (E : Env) (object : Obj)
  (useDefault : option (Model E)) :
  silent (saveObject E object useDefault).
Proof.
  apply silent_then; [apply silent_getModel|].
  intros [m|]; [apply silent_call_saveModel | auto with silence].
Qed.

Lemma silent_call_backupEncrypt (E : Env) (profile : JSValue) :
  silent_call (_backupEncrypt E profile).
Proof.
  unfold _backupEncrypt.
  do 3 silent_step.
  apply silent_call_bind; [auto with silence | intros model].
  destruct model as [m|]; [|apply silent_call_throw].
  do 3 silent_step.
  apply silent_call_saveModel.
Qed.

Lemma quiet_backupEncryption (E : Env) (objects : list (string * Obj)) :
  quiet (_backupEncryption E objects).
Proof.
  intros w. rewrite backupEncryption_steps.
  destruct (_getEncryption _); [|apply same_output_refl].
  destruct (pluck "name" a); [apply same_output_refl|].
  destruct (this_collection E (st w)); [|apply same_output_refl].
  cbv zeta. destruct (snapshot _ _ _ _); apply same_output_refl.
Qed.

(** ** [Q.all] *)

Lemma run_all_app {E A} (ps qs : list (Async E A)) (w : World E) :
  run_all (ps ++ qs) w
  = ((fst (run_all ps w) ++ fst (run_all qs (snd (run_all ps w))))%list,
     snd (run_all qs (snd (run_all ps w)))).
Proof.
  revert w. induction ps as [|p ps IH]; intros w; simpl.
  - destruct (run_all qs w); reflexivity.
  - destruct (p w) as [o w1]. rewrite IH.
    destruct (run_all ps w1) as [os w2]. simpl.
    destruct (run_all qs w2); reflexivity.
Qed.

Lemma run_all_length {E A} (ps : list (Async E A)) (w : World E) :
  List.length (fst (run_all ps w)) = List.length ps.
Proof.
  revert w. induction ps as [|p ps IH]; intros w; simpl; [reflexivity|].
  destruct (p w) as [o w1]. specialize (IH w1).
  destruct (run_all ps w1). simpl in *. congruence.
Qed.

Lemma run_all_silent {E A} (ps : list (Async E A)) (w : World E) :
  Forall silent ps -> same_output w (snd (run_all ps w)).
Proof.
  intros H. revert w. induction H as [|p ps Hp _ IH]; intros w; simpl.
  - apply same_output_refl.
  - specialize (Hp w). destruct (p w) as [o w1]. specialize (IH w1).
    destruct (run_all ps w1) as [os w2]. simpl in *.
    eapply same_output_trans; eassumption.
Qed.

Lemma run_all_map {E A X} (f : X -> Async E A) (l : list X) (w : World E) :
  Forall2 (fun x o => exists w', o = fst (f x w')) l
          (fst (run_all (map f l) w)).
Proof.
  revert w. induction l as [|x l IH]; intros w; simpl; [constructor|].
  destruct (f x w) as [o w1] eqn:Hx. specialize (IH w1).
  destruct (run_all (map f l) w1) as [os w2]. simpl in *.
  constructor; [|exact IH]. exists w. rewrite Hx. reflexivity.
Qed.

Lemma join_fulfilled {A} (outs : list (Settled A)) (results : list A) :
  join outs = Fulfilled results <-> outs = map Fulfilled results.
Proof.
  revert results. induction outs as [|[a|e] outs IH]; intros results; simpl.
  - split; intros H.
    + injection H as <-. reflexivity.
    + destruct results; [reflexivity | discriminate H].
  - destruct (join outs) as [l|e].
    + split; intros H.
      * injection H as <-. simpl. f_equal. apply IH. reflexivity.
      * destruct results as [|r results]; [discriminate H|].
        injection H as -> H. apply IH in H. congruence.
    + split; intros H; [discriminate H|].
      destruct results as [|r results]; [discriminate H|].
      injection H as _ H. apply IH in H. discriminate H.
  - split; intros H; [discriminate H|].
    destruct results; discriminate H.
Qed.

Lemma join_all_fulfilled {A} (outs : list (Settled A)) :
  forallb is_fulfilled outs = true ->
  exists results, join outs = Fulfilled results.
Proof.
  induction outs as [|[a|e] outs IH]; simpl; intros H.
  - eauto.
  - destruct (IH H) as [l ->]. eauto.
  - discriminate H.
Qed.


(** ** [saveObjects] *)

Lemma saveObjects_start_spec (E : Env) (objects : Objects)
  (useDefault : option (Model E)) (w w0 : World E)
  (r : Exc (list (string * Obj) * list (Async E Saved)
            * list (Async E Saved))) :
  saveObjects_start E objects useDefault w = (r, w0) ->
  same_output w w0 /\
  match r with
  | Returned (objs, backup, saves) =>
      Forall silent backup /\
      saves = map (fun kv => saveObject E (snd kv) useDefault)
                  (own_entries objs)
  | Threw _ => True
  end.
Proof.
  unfold saveObjects_start.
  set (first := match objects with
                | AsMap m => _
                | AsArray _ => _
                end).
  assert (Hfirst : same_output w (snd (first w)) /\
                   match fst (first w) with
                   | Returned backup => Forall silent backup
                   | Threw _ => True
                   end).
  { subst first. destruct objects as [l|m].
    - split; [apply same_output_refl | constructor].
    - destruct (get_own "useDefaultConfigs" m);
        [|split; [apply same_output_refl | constructor]].
      destruct useDefault as [u|];
        [|split; [apply same_output_refl | exact I]].
      unfold bind, read. cbv beta iota.
      destruct (silent_call_backupEncrypt E (model_database_id E u (st w)) w)
        as [H1 H2].
      destruct (_backupEncrypt E (model_database_id E u (st w)) w)
        as [[p|e] w1]; simpl in *; [|split; [exact H1 | exact I]].
      split; [exact H1 | constructor; [exact H2 | constructor]]. }
  unfold bind, lift_exc.
  destruct (first w) as [[backup|e] w1]; simpl in Hfirst;
    [|intros H; injection H as <- <-; exact Hfirst].
  destruct Hfirst as [H1 Hbackup].
  destruct (match objects with
            | AsArray l => indexBy_name E [] l
            | AsMap m => Returned m
            end) as [keyed|e];
    [|intros H; injection H as <- <-; split; [exact H1 | exact I]].
  pose proof (quiet_backupEncryption E keyed w1) as H2.
  destruct (_backupEncryption E keyed w1) as [[objs|e] w2]; simpl in H2;
    intros H; injection H as <- <-.
  - split; [eapply same_output_trans; eassumption|].
    split; [exact Hbackup | reflexivity].
  - split; [eapply same_output_trans; eassumption | exact I].
Qed.

Lemma saveObjects_run (E : Env) (objects : Objects)
  (useDefault : option (Model E)) (w w0 : World E)
  (objs : list (string * Obj)) (backup saves : list (Async E Saved)) :
  saveObjects_start E objects useDefault w
  = (Returned (objs, backup, saves), w0) ->
  run (saveObjects E objects useDefault) w
  = match join (fst (run_all (backup ++ saves) w0)) with
    | Fulfilled results =>
        let w1 := snd (run_all (backup ++ saves) w0) in
        (Done JUndefined,
         mkWorld (st w1)
           (events w1 ++
            [Ev_changed (saved_batch objs (own_entries objs)
                           (skipn (List.length backup) results))])
           (console w1))
    | Rejected e => (Failed e, snd (run_all (backup ++ saves) w0))
    end.
Proof.
  intros Hstart.
  unfold run, saveObjects. unfold bind at 1. rewrite Hstart.
  unfold ret at 1. unfold then_, Q_all.
  destruct (run_all (backup ++ saves) w0) as [outs w1]. simpl.
  destruct (join outs); reflexivity.
Qed.

Lemma saveObjects_raised (E : Env) (objects : Objects)
  (useDefault : option (Model E)) (w w0 : World E) (e : JSError) :
  saveObjects_start E objects useDefault w = (Threw e, w0) ->
  run (saveObjects E objects useDefault) w = (Raised e, w0).
Proof.
  intros Hstart. unfold run, saveObjects. unfold bind at 1.
  rewrite Hstart. reflexivity.
Qed.

Lemma saved_batch_keys (objs visited : list (string * Obj))
  (results : list Saved) :
  (forall kv, In kv visited -> In (fst kv) (map fst objs)) ->
  map fst (saved_batch objs visited results) = map fst objs.
Proof.
  revert objs results.
  induction visited as [|[k v] visited IH]; intros objs results Hin; simpl;
    [reflexivity|].
  destruct results as [|r results]; [reflexivity|].
  rewrite IH.
  - apply set_prop_keeps_keys. apply (Hin (k, v)). left. reflexivity.
  - intros kv Hkv. rewrite set_prop_keeps_keys.
    + apply Hin. right. exact Hkv.
    + apply (Hin (k, v)). left. reflexivity.
Qed.

Lemma saved_batch_keeps (k : string) (object : Obj)
  (objs visited : list (string * Obj)) (results : list Saved) :
  get_own k objs = Some object ->
  Forall2 (fun kv r => fst kv = k -> snd r = object) visited results ->
  get_own k (saved_batch objs visited results) = Some object.
Proof.
  intros Hk H. revert objs Hk.
  induction H as [|[k' v] r visited results Hr _ IH]; intros objs Hk; simpl;
    [exact Hk|].
  apply IH. rewrite get_own_set_prop.
  destruct (String.eqb_spec k k') as [->|Hne]; [|exact Hk].
  rewrite Hr; reflexivity.
Qed.

(** ** Lists of outcomes *)

Lemma firstn_length_app {A} (a b : list A) (n : nat) :
  List.length a = n -> firstn n (a ++ b) = a.
Proof.
  intros <-. rewrite firstn_app, Nat.sub_diag, firstn_all. simpl.
  apply app_nil_r.
Qed.

Lemma skipn_length_app {A} (a b : list A) (n : nat) :
  List.length a = n -> skipn n (a ++ b) = b.
Proof.
  intros <-. rewrite skipn_app, Nat.sub_diag, skipn_all. reflexivity.
Qed.

Lemma Forall2_meet {A B} (P : A -> Prop) (R1 R2 R3 : A -> B -> Prop)
  (l : list A) (l' : list B) :
  (forall x y, P x -> R1 x y -> R2 x y -> R3 x y) ->
  Forall P l -> Forall2 R1 l l' -> Forall2 R2 l l' -> Forall2 R3 l l'.
Proof.
  intros Himp HP H1. revert HP. induction H1 as [|x y l l' Hxy _ IH];
    intros HP H2; inversion H2; subst; inversion HP; subst; constructor; auto.
Qed.

Lemma Forall2_fulfilled {A B} (R : A -> Settled B -> Prop)
  (l : list A) (outs : list (Settled B)) :
  Forall2 R l outs ->
  (forall x o, R x o -> is_fulfilled o = true) ->
  forallb is_fulfilled outs = true.
Proof.
  intros H Himp. induction H as [|x o l outs Hxo _ IH]; simpl; [reflexivity|].
  rewrite (Himp x o Hxo), IH. reflexivity.
Qed.

Lemma saveObject_skips (E : Env) (object : Obj)
  (useDefault : option (Model E)) (w : World E) :
  no_model E (get_prop "name" object) ->
  exists s1 c s2,
    base_getModel E (JObj [("name", get_prop "name" object)]) (st w)
    = (Fulfilled None, s1) /\
    base_changeDatabase_new E (JObj [("name", get_prop "name" object)]) s1
    = (c, s2) /\
    coll_getDefault E c (get_prop "name" object) s2 = None /\
    saveObject E object useDefault w
    = (Fulfilled (JUndefined, object), with_st E w s2).
Proof.
  intros Hno. destruct (Hno (st w)) as [s1 [c [s2 [H1 [H2 H3]]]]].
  exists s1, c, s2. repeat split; try assumption.
  unfold saveObject, getModel, then_, promise_of.
  rewrite H1. unfold bind, call_st. simpl. rewrite H2. simpl.
  unfold read. simpl.
  change (get_prop "name" [("name", get_prop "name" object)])
    with (get_prop "name" object).
  rewrite H3. reflexivity.
Qed.

Lemma saveObjects_saves_silent (E : Env) (objects : Objects)
  (useDefault : option (Model E)) (w w0 w1 : World E)
  (objs : list (string * Obj)) (backup saves : list (Async E Saved))
  (outs : list (Settled Saved)) :
  saveObjects_start E objects useDefault w
  = (Returned (objs, backup, saves), w0) ->
  run_all (backup ++ saves) w0 = (outs, w1) ->
  same_output w w1.
Proof.
  intros Hstart Hall.
  destruct (saveObjects_start_spec E objects useDefault w w0 _ Hstart)
    as [Hsync [Hbackup Hsaves]].
  eapply same_output_trans; [exact Hsync|].
  replace w1 with (snd (run_all (backup ++ saves) w0))
    by (rewrite Hall; reflexivity).
  apply run_all_silent, Forall_app. split; [exact Hbackup|].
  rewrite Hsaves. apply Forall_forall. intros p Hp.
  apply in_map_iff in Hp. destruct Hp as [kv [<- _]].
  apply silent_saveObject.
Qed.

Lemma saveObjects_all_fulfilled (E : Env) (objects : Objects)
  (useDefault : option (Model E)) (w w0 w1 : World E)
  (objs : list (string * Obj)) (backup saves : list (Async E Saved))
  (outs : list (Settled Saved)) :
  saveObjects_start E objects useDefault w
  = (Returned (objs, backup, saves), w0) ->
  run_all (backup ++ saves) w0 = (outs, w1) ->
  forallb is_fulfilled outs = true ->
  exists results,
    outs = map Fulfilled results /\
    run (saveObjects E objects useDefault) w
    = (Done JUndefined,
       mkWorld (st w1)
         (events w ++
          [Ev_changed (saved_batch objs (own_entries objs)
                         (skipn (List.length backup) results))])
         (console w)).
Proof.
  intros Hstart Hall Hok.
  destruct (saveObjects_saves_silent E objects useDefault w w0 w1 objs backup
              saves outs Hstart Hall) as [Hev Hco].
  pose proof (saveObjects_run E objects useDefault w w0 objs backup saves
                Hstart) as Hrun.
  rewrite Hall in Hrun. simpl in Hrun.
  destruct (join_all_fulfilled outs Hok) as [results Hjoin].
  exists results. split; [apply join_fulfilled; exact Hjoin|].
  rewrite Hjoin, Hev, Hco in Hrun. exact Hrun.
Qed.

(** ** [_.pick] copies, it does not invent *)

Lemma pick_into_from_obj (E : Env) (obj : Obj) (ks : list JSValue) :
  forall result r,
    (forall k v, get_own k result = Some v -> get_own k obj = Some v) ->
    pick_into E result obj ks = Returned r ->
    forall k v, get_own k r = Some v -> get_own k obj = Some v.
Proof.
  induction ks as [|k0 ks IH]; intros result r Hres Hpick; simpl in Hpick.
  - injection Hpick as <-. exact Hres.
  - destruct (to_key E k0) as [key|e]; [|discriminate Hpick].
    simpl in Hpick. destruct (get_own key obj) as [v0|] eqn:Hkey.
    + apply (IH _ _) with (2 := Hpick). intros k v.
      rewrite get_own_set_prop.
      destruct (String.eqb_spec k key) as [->|Hne]; [congruence | apply Hres].
    + apply (IH _ _ Hres Hpick).
Qed.

(** ** More on the synchronous part of a save *)

Lemma backupEncryption_world (E : Env) (objects : list (string * Obj))
  (w w' : World E) (r : Exc (list (string * Obj))) :
  _backupEncryption E objects w = (r, w') -> w' = w.
Proof.
  rewrite backupEncryption_steps.
  destruct (_getEncryption _) as [enc|e]; [|congruence].
  destruct (pluck "name" enc); [congruence|].
  destruct (this_collection E (st w)); [|congruence].
  cbv zeta. destruct (snapshot _ _ _ _); congruence.
Qed.

Lemma selected_entry_changes (objects : list (string * Obj)) (k : string)
  (entry : Obj) :
  get_own k objects = Some entry ->
  names_encryption entry = true ->
  exists n ns,
    pluck "name"
      (map (fun kv => JObj (snd kv))
           (filter (fun kv => names_encryption (snd kv)) (own_entries objects)))
    = n :: ns.
Proof.
  intros Hk Hname.
  assert (Hin : In (k, entry)
                   (filter (fun kv => names_encryption (snd kv))
                           (own_entries objects))).
  { apply filter_In. split; [apply own_entries_spec; exact Hk | exact Hname]. }
  destruct (filter _ (own_entries objects)) as [|kv rest]; [contradiction|].
  simpl. eauto.
Qed.


(** ** What the load announces *)

Lemma silent_thenResolve {E A B} (p : Async E A) (b : B) :
  silent p -> silent (thenResolve p b).
Proof.
  intros Hp. apply silent_then; [exact Hp|].
  intros a. apply silent_call_ret, silent_resolved.
Qed.

Lemma silent_checkBackup (E : Env) (profile : JSValue) :
  silent (_checkBackup E profile).
Proof.
  apply silent_then; [apply silent_getModel|].
  intros backup. silent_step.
  destruct (strict_eq_str profile a); [auto with silence|].
  destruct backup as [b|]; [|auto with silence].
  silent_step. destruct (negb (isEmpty a0)); [auto with silence|].
  apply silent_call_ret, silent_then; [apply silent_getModel|].
  intros [m|]; [|apply silent_call_throw].
  silent_step. apply silent_call_bind; [|intros; auto with silence].
  destruct (negb (isEmpty a1)); [|auto with silence].
  apply quiet_bind; [auto with silence|]. intros json.
  apply quiet_bind; auto with silence.
Qed.

Lemma createDefault_announces (E : Env) (options : Obj) (w : World E) :
  at_most_collection_empty w (snd (_createDefault E options w)) /\
  console (snd (_createDefault E options w)) = console w /\
  match fst (_createDefault E options w) with
  | Returned p => silent p
  | Threw _ => True
  end.
Proof.
  unfold _createDefault, bind, the_collection, read.
  destruct (this_collection E (st w)) as [c|];
    [|split; [left; reflexivity | split; [reflexivity | exact I]]].
  destruct (coll_hasNewConfigs E c (st w)); simpl;
    [|split; [left; reflexivity | split; [reflexivity | apply silent_resolved]]].
  assert (Hp : forall c0 : Coll E,
             silent (thenResolve
                       (then_
                          (then_ (promise_of (coll_migrateFromLocal E c))
                             (fun r => ret (promise_of (coll_createDefault E c r))))
                          (fun _ =>
                             c' <- the_collection ;;
                             update (coll_trigger_reset_all E c') ;;;
                             ret (promise_of (base_getAll E options))))
                       (Some c0))).
  { intros c0. apply silent_thenResolve, silent_then.
    - apply silent_then; [apply silent_promise_of|].
      intros r. apply silent_call_ret, silent_promise_of.
    - intros _. do 2 silent_step. apply silent_call_ret, silent_promise_of. }
  destruct (Nat.eqb (coll_length E c (st w)) 0); simpl.
  - split; [right; reflexivity | split; [reflexivity | apply Hp]].
  - split; [left; reflexivity | split; [reflexivity | apply Hp]].
Qed.

Lemma then_announces {E A B} (p : Async E A) (f : A -> Sync E (Async E B)) :
  silent p ->
  (forall a w,
      at_most_collection_empty w (snd (f a w)) /\
      console (snd (f a w)) = console w /\
      match fst (f a w) with
      | Returned q => silent q
      | Threw _ => True
      end) ->
  forall w,
    at_most_collection_empty w (snd (then_ p f w)) /\
    console (snd (then_ p f w)) = console w.
Proof.
  intros Hp Hf w. unfold then_. destruct (Hp w) as [Hev Hco].
  destruct (p w) as [[a|e] w1]; simpl in Hev, Hco |- *.
  - destruct (Hf a w1) as [H1 [H2 H3]].
    destruct (f a w1) as [[q|e] w2]; simpl in H1, H2, H3 |- *.
    + destruct (H3 w2) as [H4 H5]. unfold at_most_collection_empty in *.
      rewrite H4, H5, H2, Hco, <- Hev. auto.
    + unfold at_most_collection_empty in *. rewrite H2, Hco, <- Hev. auto.
  - split; [left; exact Hev | exact Hco].
Qed.

Lemma getAll_load_announces (E : Env) (options : Obj) (profile : JSValue)
  (w : World E) :
  at_most_collection_empty w (snd (getAll_load E options profile w)) /\
  console (snd (getAll_load E options profile w)) = console w.
Proof.
  unfold getAll_load. apply then_announces.
  - apply silent_then.
    + apply silent_then; [apply silent_getModel|].
      intros model. apply silent_call_bind.
      * unfold resolveProfile. destruct model as [m|]; [|auto with silence].
        apply quiet_bind; [auto with silence|]. intros v.
        apply quiet_bind; auto with silence.
      * intros o. apply silent_call_ret, silent_thenResolve, silent_promise_of.
    + intros o. apply silent_call_ret, silent_thenResolve, silent_checkBackup.
  - intros o w1. apply createDefault_announces.
Qed.

(** ** [_getEncryption] on the names of the collection *)

Lemma filter_throws_TypeError (its : list (JSValue * JSValue)) (e : JSError) :
  filter_ is_encryption its = Threw e -> e = TypeError.
Proof.
  induction its as [|[v k] its IH]; simpl; [discriminate|].
  rewrite is_encryption_cases.
  destruct v; simpl;
    try (destruct (filter_ is_encryption its); simpl;
         [discriminate | exact IH]).
  intros H. injection H as <-. reflexivity.
Qed.

Lemma getEncryption_throws_TypeError (c : Collection) (e : JSError) :
  _getEncryption c = Threw e -> e = TypeError.
Proof. apply filter_throws_TypeError. Qed.



(** ** Batches keyed by name *)

Lemma set_prop_new_key {V} (k : string) (v : V) (o : list (string * V)) :
  ~ In k (map fst o) -> set_prop k v o = (o ++ [(k, v)])%list.
Proof.
  induction o as [|[k0 v0] o IH]; simpl; intros Hnew; [reflexivity|].
  destruct (String.eqb_spec k k0) as [->|Hne].
  - exfalso. apply Hnew. left. reflexivity.
  - f_equal. apply IH. intros H. apply Hnew. right. exact H.
Qed.

Lemma set_prop_NoDup {V} (k : string) (v : V) (o : list (string * V)) :
  NoDup (map fst o) -> NoDup (map fst (set_prop k v o)).
Proof.
  intros Hnd. destruct (in_dec string_dec k (map fst o)) as [Hin|Hout].
  - rewrite set_prop_keeps_keys; assumption.
  - rewrite set_prop_new_key, map_app by exact Hout. simpl.
    apply NoDup_app; [exact Hnd | repeat constructor; intros [] |].
    intros x Hx [<-|[]]. contradiction.
Qed.

Lemma indexBy_name_app (E : Env) (a b : list Obj)
  (result : list (string * Obj)) :
  indexBy_name E result (a ++ b)
  = match indexBy_name E result a with
    | Returned r => indexBy_name E r b
    | Threw e => Threw e
    end.
Proof.
  revert result. induction a as [|entry a IH]; intros result; simpl;
    [reflexivity|].
  destruct (to_key E (get_prop "name" entry)) as [key|e]; simpl;
    [|reflexivity].
  destruct (String.eqb key "__proto__"); apply IH.
Qed.

Lemma indexBy_name_other_keys (E : Env) (l : list Obj) (k : string) :
  forall result keyed,
    indexBy_name E result l = Returned keyed ->
    (forall e, In e l -> to_key E (get_prop "name" e) <> Returned k) ->
    get_own k keyed = get_own k result.
Proof.
  induction l as [|entry l IH]; intros result keyed Hrun Hother;
    simpl in Hrun.
  - injection Hrun as <-. reflexivity.
  - destruct (to_key E (get_prop "name" entry)) as [key|e] eqn:Hkey;
      [|discriminate Hrun].
    simpl in Hrun.
    assert (Hrest : forall e, In e l ->
                              to_key E (get_prop "name" e) <> Returned k)
      by (intros e He; apply Hother; right; exact He).
    destruct (String.eqb key "__proto__"); [exact (IH _ _ Hrun Hrest)|].
    rewrite (IH _ _ Hrun Hrest), get_own_set_prop.
    destruct (String.eqb_spec k key) as [->|Hne]; [|reflexivity].
    exfalso. apply (Hother entry); [left; reflexivity | exact Hkey].
Qed.

Lemma indexBy_name_spec (E : Env) (l : list Obj) :
  forall result keyed,
    indexBy_name E result l = Returned keyed ->
    (NoDup (map fst result) -> NoDup (map fst keyed)) /\
    (get_own "__proto__" result = None ->
     get_own "__proto__" keyed = None) /\
    (forall k e, get_own k keyed = Some e ->
                 get_own k result = Some e \/
                 (In e l /\ to_key E (get_prop "name" e) = Returned k)).
Proof.
  induction l as [|entry l IH]; intros result keyed Hrun; simpl in Hrun.
  - injection Hrun as <-. auto.
  - destruct (to_key E (get_prop "name" entry)) as [key|e] eqn:Hkey;
      [|discriminate Hrun].
    simpl in Hrun.
    destruct (String.eqb_spec key "__proto__") as [Hproto|Hproto].
    + destruct (IH _ _ Hrun) as [Hnd [Hnone Hfrom]].
      split; [exact Hnd|]. split; [exact Hnone|].
      intros k e He. destruct (Hfrom k e He) as [H | [Hin Hto]];
        [left; exact H | right; split; [right; exact Hin | exact Hto]].
    + destruct (IH _ _ Hrun) as [Hnd [Hnone Hfrom]]. split; [|split].
      * intros H. apply Hnd, set_prop_NoDup, H.
      * intros H. apply Hnone. rewrite get_own_set_prop.
        destruct (String.eqb_spec "__proto__" key) as [Heq|_];
          [exfalso; apply Hproto; symmetry; exact Heq | exact H].
      * intros k e He. destruct (Hfrom k e He) as [H | [Hin Hto]].
        -- rewrite get_own_set_prop in H.
           destruct (String.eqb_spec k key) as [->|Hne]; [|left; exact H].
           injection H as <-. right.
           split; [left; reflexivity | exact Hkey].
        -- right. split; [right; exact Hin | exact Hto].
Qed.

(** ** What a save leaves of the entry *)

Lemma saveObject_data (E : Env) (object data : Obj)
  (useDefault : option (Model E)) (w w' : World E) (r : JSValue) :
  saveObject E object useDefault w = (Fulfilled (r, data), w') ->
  data = object \/ exists digest, data = set_prop "value" digest object.
Proof.
  unfold saveObject. unfold then_ at 1.
  destruct (getModel E _ w) as [[[m|]|e] w1]; [| |discriminate].
  - set (target := if strict_eq_str _ _ then _ else _).
    destruct target as [t|]; simpl; [|discriminate].
    unfold bind, read.
    destruct (model_isPassword E t object (st w1)); simpl.
    + unfold then_, promise_of, ret, saveFunc, then_, promise_of, resolved.
      destruct (encrypt_sha256 E _ (st w1)) as [[d|e] s1]; [|discriminate].
      simpl. destruct (base_saveModel E t _ s1) as [[r'|e] s2];
        [|discriminate].
      intros H. injection H as _ <- _. right. eauto.
    + unfold saveFunc, then_, promise_of, ret, resolved.
      destruct (base_saveModel E t object (st w1)) as [[r'|e] s2];
        [|discriminate].
      intros H. injection H as _ <- _. left. reflexivity.
  - simpl. intros H. injection H as _ <- _. left. reflexivity.
Qed.

Lemma saved_batch_related (R : Obj -> Obj -> Prop)
  (objs : list (string * Obj)) :
  forall (visited : list (string * Obj)) (results : list Saved)
         (current : list (string * Obj)),
    (forall kv, In kv visited -> get_own (fst kv) objs = Some (snd kv)) ->
    Forall2 (fun kv r => R (snd kv) (snd r)) visited results ->
    (forall k e', get_own k current = Some e' ->
                  exists e, get_own k objs = Some e /\ R e e') ->
    forall k e', get_own k (saved_batch current visited results) = Some e' ->
                 exists e, get_own k objs = Some e /\ R e e'.
Proof.
  intros visited results current Hvisited H. revert current.
  induction H as [|[k0 e0] r visited results Hr _ IH]; intros current Hcur;
    simpl; [exact Hcur|].
  apply IH.
  - intros kv Hkv. apply Hvisited. right. exact Hkv.
  - intros k e'. rewrite get_own_set_prop.
    destruct (String.eqb_spec k k0) as [->|Hne]; [|apply Hcur].
    intros He. injection He as <-. exists e0. split; [|exact Hr].
    apply (Hvisited (k0, e0)). left. reflexivity.
Qed.

(** ** The list of profiles *)

Lemma number_is_1_throws (P : ProfilesEnv) (v : JSValue) (e : JSError) :
  number_is_1 P v = Threw e -> e = TypeError.
Proof.
  destruct v as [| | | | | |o]; simpl; try discriminate.
  destruct (get_own "toString" o); congruence.
Qed.

Lemma get_member_throws (v : JSValue) (k : string) (e : JSError) :
  get_member v k = Threw e -> e = TypeError.
Proof. destruct v; simpl; congruence. Qed.

Lemma uses_default_spec (P : ProfilesEnv) (p : option (Model P))
  (w : World P) :
  exists r,
    uses_default P p w = (r, w) /\
    (forall b, r = Returned b ->
               exists m, p = Some m /\ b = listed P (st w) m) /\
    (forall e, r = Threw e -> e = TypeError).
Proof.
  destruct p as [m|].
  - unfold uses_default, bind, read, lift_exc, ret. cbv beta iota.
    destruct (number_is_1 P (model_get P m "value" (st w))) as [[|]|e] eqn:H1.
    + eexists. split; [reflexivity|]. split; [|discriminate].
      intros b Hb. injection Hb as <-. exists m. split; [reflexivity|].
      unfold listed. rewrite H1. reflexivity.
    + destruct (get_member (model_database P m (st w)) "id") as [id|e] eqn:H2.
      * eexists. split; [reflexivity|]. split; [|discriminate].
        intros b Hb. injection Hb as <-. exists m. split; [reflexivity|].
        unfold listed. rewrite H1, H2. reflexivity.
      * eexists. split; [reflexivity|].
        split; [discriminate|].
        intros e' He. injection He as <-. eapply get_member_throws, H2.
    + eexists. split; [reflexivity|].
      split; [discriminate|].
      intros e' He. injection He as <-. eapply number_is_1_throws, H1.
  - exists (Threw TypeError). split; [reflexivity|].
    split; [discriminate | congruence].
Qed.

Lemma filter_profiles_spec (P : ProfilesEnv)
  (fetched : list (option (Model P))) (w : World P) :
  exists r,
    filter_profiles P fetched w = (r, w) /\
    (forall kept, r = Returned kept ->
                  exists models,
                    fetched = map Some models /\
                    kept = map Some (filter (listed P (st w)) models)) /\
    (forall e, r = Threw e -> e = TypeError) /\
    (In None fetched -> r = Threw TypeError).
Proof.
  induction fetched as [|p rest IH].
  - exists (Returned []). split; [reflexivity|].
    split; [|split; [discriminate | intros []]].
    intros kept H. injection H as <-. exists []. split; reflexivity.
  - destruct (uses_default_spec P p w) as [r1 [Hrun1 [Hret1 Hthrow1]]].
    destruct IH as [r2 [Hrun2 [Hret2 [Hthrow2 Hnone2]]]].
    cbn [filter_profiles]. unfold bind at 1. rewrite Hrun1.
    destruct r1 as [keep|e1].
    + unfold bind at 1. rewrite Hrun2.
      destruct (Hret1 keep eq_refl) as [m [-> Hkeep]].
      destruct r2 as [kept2|e2].
      * eexists. split; [reflexivity|].
        split; [|split; [discriminate|]].
        -- intros kept H. injection H as <-.
           destruct (Hret2 kept2 eq_refl) as [models [-> ->]].
           exists (m :: models). split; [reflexivity|].
           cbn [filter]. rewrite <- Hkeep. destruct keep; reflexivity.
        -- intros [H|H]; [discriminate H|].
           specialize (Hnone2 H). discriminate Hnone2.
      * eexists. split; [reflexivity|].
        split; [discriminate|]. split.
        -- intros e He. injection He as <-. apply Hthrow2. reflexivity.
        -- intros _. rewrite (Hthrow2 e2 eq_refl). reflexivity.
    + eexists. split; [reflexivity|].
      split; [discriminate|]. split.
      * intros e He. injection He as <-. apply Hthrow1. reflexivity.
      * intros _. rewrite (Hthrow1 e1 eq_refl). reflexivity.
Qed.

Lemma pluck_database_models (P : ProfilesEnv) (models : list (Model P))
  (w : World P) :
  pluck_database P (map Some models) w
  = (Returned (map (fun m => model_database P m (st w)) models), w).
Proof. unfold pluck_database, read. rewrite map_map. reflexivity. Qed.

Lemma silent_Q_all {E A} (ps : list (Async E A)) :
  Forall silent ps -> silent (Q_all ps).
Proof.
  intros H w. unfold Q_all. pose proof (run_all_silent ps w H) as Hout.
  destruct (run_all ps w). exact Hout.
Qed.

Lemma quiet_uses_default (P : ProfilesEnv) (p : option (Model P)) :
  quiet (uses_default P p).
Proof.
  intros w. destruct (uses_default_spec P p w) as [r [-> _]].
  apply same_output_refl.
Qed.

Lemma quiet_filter_profiles (P : ProfilesEnv)
  (fetched : list (option (Model P))) :
  quiet (filter_profiles P fetched).
Proof.
  intros w. destruct (filter_profiles_spec P fetched w) as [r [-> _]].
  apply same_output_refl.
Qed.

Lemma silent_call_getDefaultProfiles (P : ProfilesEnv)
  (model : option (Model P)) :
  silent_call (_getDefaultProfiles P model).
Proof.
  destruct model as [m|]; [|apply silent_call_throw].
  unfold _getDefaultProfiles. silent_step.
  apply silent_call_ret, silent_then.
  - apply silent_Q_all, Forall_forall. intros p Hp.
    unfold flag_lookups in Hp. apply in_map_iff in Hp.
    destruct Hp as [item [<- _]]. apply silent_getModel.
  - intros fetched. apply silent_call_bind; [apply quiet_filter_profiles|].
    intros kept. apply silent_call_bind; [apply quiet_read|].
    intros databases. auto with silence.
Qed.


(** * The claims *)

(** C2. Backup merge: when a batch contains encryption entries and
    [_backupEncryption] returns, the [encryptBackup] entry it has put into
    the batch holds [_.extend({}, snapshot, existing backup)]: under every
    key the existing backup's value if it has one, the freshly computed
    snapshot's value otherwise.  In particular merging the snapshot
    [{a: "new", b: "x"}] into the backup [{a: "old"}] gives
    [{a: "old", b: "x"}]. *)
Theorem backup_merge_existing_wins :
  forall (E : Env) (objects objects' : list (string * Obj)) (w w' : World E)
         (encryption : list JSValue),
    _getEncryption (ObjectOf (as_object objects)) = Returned encryption ->
    encryption <> [] ->
    _backupEncryption E objects w = (Returned objects', w') ->
    exists c fresh,
      this_collection E (st w) = Some c /\
      snapshot E (coll_getConfigs E c (st w)) objects
               (pluck "name" encryption) = Returned fresh /\
      (let existing := get_prop "encryptBackup" (coll_getConfigs E c (st w)) in
       let merged := extend [] (JObj fresh) existing in
       get_own "encryptBackup" objects'
       = Some [("name", JStr "encryptBackup"); ("value", JObj merged)] /\
       forall k,
         get_own k merged
         = match get_own k (own_props existing) with
           | Some old => Some old
           | None => get_own k fresh
           end) /\
      extend [] (JObj [("a", JStr "new"); ("b", JStr "x")])
                (JObj [("a", JStr "old")])
      = [("a", JStr "old"); ("b", JStr "x")].
Proof.
  intros E objects objects' w w' enc Henc Hne Hrun.
  rewrite backupEncryption_steps, Henc in Hrun.
  destruct (pluck "name" enc) as [|n ns] eqn:Hpl.
  { destruct enc; [congruence | discriminate Hpl]. }
  destruct (this_collection E (st w)) as [c|]; [|discriminate Hrun].
  cbv zeta in Hrun.
  destruct (snapshot E (coll_getConfigs E c (st w)) objects (n :: ns))
    as [fresh|e] eqn:Hsnap; [|discriminate Hrun].
  injection Hrun as <- <-.
  exists c, fresh. repeat split.
  - exact Hsnap.
  - rewrite get_own_set_prop. reflexivity.
  - intros k. rewrite get_own_extend. simpl.
    destruct (get_own k (own_props _)); [reflexivity|].
    destruct (get_own k fresh); reflexivity.
Qed.

Lemma backup_merge_witness :
  let objects := [("encrypt", Demo.entry "encrypt" (JNum 1));
                  ("encryptPass", Demo.entry "encryptPass" (JStr "secret"))] in
  let objects' :=
    fst (_backupEncryption Demo.env objects (Demo.world Demo.stored)) in
  _getEncryption (ObjectOf (as_object objects))
  = Returned [JObj (Demo.entry "encrypt" (JNum 1));
              JObj (Demo.entry "encryptPass" (JStr "secret"))]
  /\ get_prop "encryptBackup" Demo.stored = JObj [("encrypt", JNum 1)]
  /\ exists merged,
       objects'
       = Returned (objects ++ [("encryptBackup",
                                Demo.entry "encryptBackup" (JObj merged))])%list
       /\ get_own "encrypt" merged = Some (JNum 1)
       /\ get_own "encryptPass" merged = Some (JStr "pw").
Proof.
  cbv zeta.
  split; [reflexivity|]. split; [reflexivity|].
  destruct (backup_merge_existing_wins Demo.env
              [("encrypt", Demo.entry "encrypt" (JNum 1));
               ("encryptPass", Demo.entry "encryptPass" (JStr "secret"))]
              _ (Demo.world Demo.stored) _ _
              eq_refl ltac:(discriminate) eq_refl)
    as [c [fresh [_ [Hfresh [[_ Hmerged] _]]]]].
  exists (extend [] (JObj fresh) (JObj [("encrypt", JNum 1)])).
  vm_compute in Hfresh. injection Hfresh as <-.
  split; [reflexivity|]. split; apply Hmerged.
Defined.

(** C3, as found in the code.  The claim says the field is dropped; the code
    assigns null to it, so the snapshot and the backup still contain the
    key [encryptPass].  Here the password is saved again as [pw] while
    the backup has no password yet. *)
Lemma unchanged_password_not_dropped :
  let objects := [("encryptPass", Demo.entry "encryptPass" (JStr "pw"))] in
  let configs := [("encryptPass", JStr "pw"); ("encryptBackup", JObj [])] in
  snapshot Demo.env configs objects [JStr "encryptPass"]
  = Returned [("encryptPass", JNull)]
  /\ _backupEncryption Demo.env objects (Demo.world configs)
     = (Returned [("encryptPass", Demo.entry "encryptPass" (JStr "pw"));
                  ("encryptBackup",
                   Demo.entry "encryptBackup"
                     (JObj [("encryptPass", JNull)]))],
        Demo.world configs)
  /\ get_own "encryptPass" [("encryptPass", JNull)] <> None.
Proof.
  cbv zeta. split; [reflexivity|]. split; [reflexivity|]. discriminate.
Qed.

(** C3, amended.  When the batch sets [encryptPass] to a value whose text
    equals the text of the stored password, the snapshot's [encryptPass]
    is set to null (the key stays), and the injected backup's
    [encryptPass] is the existing backup's value if it has one and null
    otherwise. *)
Theorem unchanged_password_is_nulled :
  forall (E : Env) (objects : list (string * Obj)) (w : World E) (c : Coll E)
         (encryption : list JSValue) (entry : Obj) (text : string),
    this_collection E (st w) = Some c ->
    _getEncryption (ObjectOf (as_object objects)) = Returned encryption ->
    encryption <> [] ->
    get_own "encryptPass" objects = Some entry ->
    toString E (get_prop "encryptPass" (coll_getConfigs E c (st w)))
    = Returned text ->
    toString E (get_prop "value" entry) = Returned text ->
    exists fresh,
      let configs := coll_getConfigs E c (st w) in
      let existing := get_prop "encryptBackup" configs in
      let merged := extend [] (JObj fresh) existing in
      snapshot E configs objects (pluck "name" encryption) = Returned fresh /\
      get_own "encryptPass" fresh = Some JNull /\
      _backupEncryption E objects w
      = (Returned (set_prop "encryptBackup"
                     [("name", JStr "encryptBackup"); ("value", JObj merged)]
                     objects), w) /\
      get_own "encryptPass" merged
      = match get_own "encryptPass" (own_props existing) with
        | Some old => Some old
        | None => Some JNull
        end.
Proof.
  intros E objects w c enc entry text Hc Henc Hne Hentry Hcur Hinc.
  pose proof (getEncryption_entries objects) as Hsel.
  rewrite Henc in Hsel. injection Hsel as Hsel. subst enc.
  destruct (pick_into_strings E _ (changed_names_are_strings objects)
              [] (coll_getConfigs E c (st w))) as [picked Hpick].
  rewrite <- pluck_entries in Hpick.
  exists (set_prop "encryptPass" JNull picked). cbv zeta.
  assert (Hsnap : snapshot E (coll_getConfigs E c (st w)) objects
                    (pluck "name"
                       (map (fun kv => JObj (snd kv))
                          (filter (fun kv => names_encryption (snd kv))
                             (own_entries objects))))
                  = Returned (set_prop "encryptPass" JNull picked)).
  { unfold snapshot, pick. rewrite Hpick. cbn [exc_bind].
    rewrite Hentry, Hcur, Hinc. cbn [exc_bind].
    rewrite String.eqb_refl. reflexivity. }
  split; [exact Hsnap|]. split.
  { rewrite get_own_set_prop. reflexivity. }
  split.
  - rewrite backupEncryption_steps, Henc.
    destruct (pluck "name" _) as [|n ns] eqn:Hpl.
    { rewrite pluck_entries in Hpl. apply map_eq_nil in Hpl.
      rewrite Hpl in Hne. exfalso. apply Hne. reflexivity. }
    rewrite Hc. cbv zeta. rewrite Hsnap. reflexivity.
  - rewrite get_own_extend. cbn [own_props get_own].
    destruct (get_own "encryptPass" (own_props _)); [reflexivity|].
    rewrite get_own_set_prop. reflexivity.
Qed.

Lemma unchanged_password_witness :
  let objects := [("encryptPass", Demo.entry "encryptPass" (JStr "pw"))] in
  this_collection Demo.env (st (Demo.world Demo.stored)) = Some tt
  /\ get_own "encryptPass" objects = Some (Demo.entry "encryptPass" (JStr "pw"))
  /\ toString Demo.env (get_prop "encryptPass" Demo.stored) = Returned "pw"
  /\ exists fresh,
       get_own "encryptPass" fresh = Some JNull /\
       get_own "encryptPass"
         (extend [] (JObj fresh) (JObj [("encrypt", JNum 1)]))
       = Some JNull.
Proof.
  cbv zeta. split; [reflexivity|]. split; [reflexivity|]. split; [reflexivity|].
  destruct (unchanged_password_is_nulled Demo.env
              [("encryptPass", Demo.entry "encryptPass" (JStr "pw"))]
              (Demo.world Demo.stored) tt _ _ "pw"
              eq_refl eq_refl ltac:(discriminate) eq_refl eq_refl eq_refl)
    as [fresh [_ [H1 [_ H2]]]].
  exists fresh. split; [exact H1 | exact H2].
Defined.

(** C9, as found in the code.  Inside [_getEncryption] the callback's
    [value] is the batch element, the entry itself, not the entry's
    [value] field: an entry named [theme] whose value is the string
    [encrypt] is not selected, and saving it injects no [encryptBackup]. *)
Lemma value_in_encrSet_not_selected :
  let objects := [("theme", Demo.entry "theme" (JStr "encrypt"))] in
  _getEncryption (ObjectOf (as_object objects)) = Returned []
  /\ _backupEncryption Demo.env objects (Demo.world Demo.stored)
     = (Returned objects, Demo.world Demo.stored)
  /\ events (snd (run (saveObjects Demo.env
                         (AsArray [Demo.entry "theme" (JStr "encrypt")]) None)
                      (Demo.world Demo.stored)))
     = [Ev_changed objects]
  /\ get_own "encryptBackup" objects = None.
Proof.
  cbv zeta. repeat split; reflexivity.
Qed.

(** C9, amended.  A batch element that is an object is encryption related
    exactly when its name is one of the six names; the element's [value]
    field is never looked at.  Only an element that is not an object is
    compared itself (or its key) with the six names.  So of a batch of
    entries [_getEncryption] selects those named in the set, and a batch
    without such an entry gets no [encryptBackup]. *)
Theorem encryption_entries_by_name :
  (forall value key : JSValue,
      is_encryption value key
      = match value with
        | JNull => Threw TypeError
        | JObj o => Returned (in_encrSet (get_prop "name" o))
        | _ => Returned (in_encrSet key || in_encrSet value)
        end)
  /\ (forall objects : list (string * Obj),
         _getEncryption (ObjectOf (as_object objects))
         = Returned (map (fun kv => JObj (snd kv))
                         (filter (fun kv => names_encryption (snd kv))
                                 (own_entries objects))))
  /\ (forall (E : Env) (objects : list (string * Obj)) (w : World E),
         filter (fun kv => names_encryption (snd kv)) (own_entries objects) = []
         -> _backupEncryption E objects w = (Returned objects, w)).
Proof.
  split; [exact is_encryption_cases|]. split; [exact getEncryption_entries|].
  intros E objects w Hnone.
  rewrite backupEncryption_steps, getEncryption_entries, Hnone. reflexivity.
Qed.

Lemma encryption_entries_witness :
  let objects := [("theme", Demo.entry "theme" (JStr "encrypt"))] in
  filter (fun kv => names_encryption (snd kv)) (own_entries objects) = []
  /\ _backupEncryption Demo.env objects (Demo.world Demo.stored)
     = (Returned objects, Demo.world Demo.stored).
Proof.
  cbv zeta. split; [reflexivity|].
  apply (proj2 (proj2 encryption_entries_by_name) Demo.env). reflexivity.
Defined.

(** C7, as found in the code.  [encrypt] is stored with the value 0, yet
    [getConfig] answers the fallback; and [toString] is absent from the
    configs, yet [getConfig] does not answer the fallback but the member
    of that name which the configs inherit from [Object.prototype]. *)
Lemma getConfig_falsy_counterexample :
  (get_own "encrypt" Demo.stored = Some (JNum 0)
   /\ getConfig Demo.env "encrypt" (JStr "fallback") (Demo.world Demo.stored)
      = (Returned (Value (JStr "fallback")), Demo.world Demo.stored))
  /\ (get_own "toString" Demo.stored = None
      /\ getConfig Demo.env "toString" (JStr "fallback")
           (Demo.world Demo.stored)
         = (Returned (Inherited "toString"), Demo.world Demo.stored)).
Proof.
  repeat split; reflexivity.
Qed.

(** C7, amended.  [getConfig(name, fallback)] returns the value stored
    under [name] when that value is truthy, and the fallback when that
    value is falsy (undefined, null, false, 0, NaN or the empty string).
    When [name] is absent it returns the fallback, unless [name] is the
    name of a member of [Object.prototype] ([toString], [constructor],
    ..): then it returns that inherited member.  It throws when the
    collection is not set. *)
Theorem getConfig_truthy_or_fallback :
  forall (E : Env) (name : string) (fallback : JSValue) (w : World E),
    getConfig E name fallback w
    = match this_collection E (st w) with
      | None => (Threw TypeError, w)
      | Some c =>
          (Returned match get_own name (coll_getConfigs E c (st w)) with
                    | Some v => Value (if truthy v then v else fallback)
                    | None =>
                        if existsb (String.eqb name) Object_prototype
                        then Inherited name
                        else Value fallback
                    end, w)
      end.
Proof.
  intros E name fallback w.
  unfold getConfig, getObject, the_collection, bind, read, ret, get_any.
  destruct (this_collection E (st w)) as [c|]; [|reflexivity].
  destruct (get_own name (coll_getConfigs E c (st w))) as [v|].
  - cbn [truthy_read]. destruct (truthy v); reflexivity.
  - unfold inherited.
    destruct (existsb (String.eqb name) Object_prototype); reflexivity.
Qed.

(** C6. [removeProfile(model, name)] announces [removed:profile] with
    [name] once the removal has succeeded, in the state the removal left;
    when the removal fails the operation is rejected with the same reason
    and nothing is announced. *)
Theorem removeProfile_announces_after_success :
  forall (E : Env) (model : Model E) (name : JSValue) (w : World E),
    run (removeProfile E model name) w
    = match model_removeProfile E model name (st w) with
      | (Fulfilled _, s) =>
          (Done JUndefined,
           mkWorld s (events w ++ [Ev_removed_profile name]) (console w))
      | (Rejected e, s) => (Failed e, mkWorld s (events w) (console w))
      end.
Proof.
  intros E model name w.
  unfold run, removeProfile, ret, then_, promise_of, bind, trigger, resolved,
    with_st.
  destruct (model_removeProfile E model name (st w)) as [[v|e] s]; reflexivity.
Qed.

(** C1, as found in the code.  When the lookup of [useDefaultConfigs]
    yields no model, the callback clears [options.profile]: the default
    profile is used, not the requested profile [work].  The same happens
    for a profile whose store has no such entry, through the built-in
    default 1.  And a stored value that is truthy but converts to the
    number 0, the string [0], keeps the requested profile. *)
Lemma absent_flag_selects_default :
  resolveProfile Demo.env None [("profile", JStr "work")] (Demo.world [])
  = (Returned [("profile", JNull)], Demo.world [])
  /\ getModel Demo.env (JObj [("name", JStr "useDefaultConfigs");
                              ("profile", JStr "work")]) (Demo.world [])
     = (Fulfilled (Some ("useDefaultConfigs", JNum 1)), Demo.world [])
  /\ resolveProfile Demo.env (Some ("useDefaultConfigs", JNum 1))
       [("profile", JStr "work")] (Demo.world [])
     = (Returned [("profile", JNull)], Demo.world [])
  /\ truthy (JStr "0") = true
  /\ resolveProfile Demo.env (Some ("useDefaultConfigs", JStr "0"))
       [("profile", JStr "work")] (Demo.world [])
     = (Returned [("profile", JStr "work")], Demo.world []).
Proof.
  repeat split; reflexivity.
Qed.

(** C1, amended.  The first callback of [getAll] clears [options.profile],
    which selects the default profile, when the lookup of
    [useDefaultConfigs] yields no model or a model whose value converted
    to a number is neither 0 nor NaN; it leaves [options.profile] as
    requested when that number is 0 or NaN.  The inherited [getAll] then
    loads with these options. *)
Theorem profile_resolution :
  forall (E : Env) (model : option (Model E)) (options : Obj) (w : World E),
    resolveProfile E model options w
    = (match model with
       | None => Returned (set_prop "profile" JNull options)
       | Some m =>
           match number_truthy E (model_get E m "value" (st w)) with
           | Returned true => Returned (set_prop "profile" JNull options)
           | Returned false => Returned options
           | Threw e => Threw e
           end
       end, w)
    /\ get_prop "profile" (set_prop "profile" JNull options) = JNull
    /\ (forall (profile : JSValue) (w0 w' : World E) (options' : Obj),
           getModel E (JObj [("name", JStr "useDefaultConfigs");
                             ("profile", get_prop "profile" options)]) w0
           = (Fulfilled model, w) ->
           resolveProfile E model options w = (Returned options', w') ->
           getAll_load E options profile w0
           = then_
               (then_ (thenResolve (promise_of (base_getAll E options'))
                                   options')
                      (fun o => ret (thenResolve (_checkBackup E profile) o)))
               (fun o => _createDefault E o) w').
Proof.
  intros E model options w. split; [|split].
  - unfold resolveProfile, bind, read, lift_exc, ret.
    destruct model as [m|]; [|reflexivity].
    destruct (number_truthy E (model_get E m "value" (st w))) as [[|]|e];
      reflexivity.
  - unfold get_prop. rewrite get_own_set_prop, String.eqb_refl. reflexivity.
  - intros profile w0 w' options'. apply getAll_load_after_resolution.
Qed.

Lemma profile_resolution_witness :
  getModel Demo.env (JObj [("name", JStr "useDefaultConfigs");
                           ("profile", JStr "work")])
    (Demo.world [("useDefaultConfigs", JStr "0")])
  = (Fulfilled (Some ("useDefaultConfigs", JStr "0")),
     Demo.world [("useDefaultConfigs", JStr "0")])
  /\ resolveProfile Demo.env (Some ("useDefaultConfigs", JStr "0"))
       [("profile", JStr "work")] (Demo.world [("useDefaultConfigs", JStr "0")])
     = (Returned [("profile", JStr "work")],
        Demo.world [("useDefaultConfigs", JStr "0")])
  /\ getAll_load Demo.env [("profile", JStr "work")] (JStr "work")
       (Demo.world [("useDefaultConfigs", JStr "0")])
     = then_
         (then_ (thenResolve
                   (promise_of (base_getAll Demo.env [("profile", JStr "work")]))
                   [("profile", JStr "work")])
                (fun o => ret (thenResolve (_checkBackup Demo.env (JStr "work"))
                                           o)))
         (fun o => _createDefault Demo.env o)
         (Demo.world [("useDefaultConfigs", JStr "0")]).
Proof.
  split; [reflexivity|]. split; [reflexivity|].
  apply (proj2 (proj2 (profile_resolution Demo.env
                         (Some ("useDefaultConfigs", JStr "0"))
                         [("profile", JStr "work")]
                         (Demo.world [("useDefaultConfigs", JStr "0")])))
               (JStr "work")); reflexivity.
Defined.

(** C10. When the collection is set and not empty, [getAll] is fulfilled
    with that collection and leaves the world as it was, whatever the
    collaborators would do: nothing is looked up, checked or created.  So
    any number of further calls leave it unchanged as well. *)
Theorem getAll_cached_collection :
  forall (E : Env) (options : Obj) (w : World E) (c : Coll E),
    this_collection E (st w) = Some c ->
    coll_length E c (st w) <> 0 ->
    run (getAll E options) w = (Done (Some c), w)
    /\ forall n : nat,
         Nat.iter n (fun w' => snd (run (getAll E options) w')) w = w.
Proof.
  intros E options w c Hc Hlen.
  assert (Hrun : run (getAll E options) w = (Done (Some c), w)).
  { unfold run, getAll, bind, read, ret, resolved, cached.
    rewrite Hc. destruct (Nat.eqb_spec (coll_length E c (st w)) 0);
      [contradiction | reflexivity]. }
  split; [exact Hrun|].
  induction n as [|n IH]; simpl; [reflexivity|].
  rewrite IH, Hrun. reflexivity.
Qed.

Lemma getAll_cached_witness :
  this_collection Demo.env (st (Demo.world Demo.stored)) = Some tt
  /\ coll_length Demo.env tt (st (Demo.world Demo.stored)) = 5
  /\ run (getAll Demo.env [("profile", JStr "work")]) (Demo.world Demo.stored)
     = (Done (Some tt), Demo.world Demo.stored).
Proof.
  split; [reflexivity|]. split; [reflexivity|].
  apply (getAll_cached_collection Demo.env [("profile", JStr "work")]
           (Demo.world Demo.stored) tt eq_refl).
  discriminate.
Defined.

(** C5. [getAll] never throws and never hands back a rejected promise:
    when the load (profile resolution, backup check, creation of the
    defaults) is rejected, the error is printed on the console and the
    promise is fulfilled with undefined; otherwise it is fulfilled with
    what the load gave. *)
Theorem getAll_never_rejects :
  forall (E : Env) (options : Obj) (w : World E),
    (exists v w', run (getAll E options) w = (Done v, w'))
    /\ (cached E (st w) = None ->
        let profile := profile_or_default options (this_defaultDB E (st w)) in
        forall (e : JSError) (w1 : World E),
          getAll_load E options profile w = (Rejected e, w1) ->
          run (getAll E options) w
          = (Done None, mkWorld (st w1) (events w1) (console w1 ++ [e]))).
Proof.
  intros E options w.
  unfold run, getAll, bind, read, ret.
  destruct (cached E (st w)) as [c|] eqn:Hc.
  - split; [|discriminate]. unfold resolved. eauto.
  - cbv zeta. unfold fail_.
    destruct (getAll_load E options
                (profile_or_default options (this_defaultDB E (st w))) w)
      as [[v|e] w1] eqn:Hload.
    + split; [eauto|]. intros _ e' w1' H. discriminate H.
    + unfold console_error, resolved. cbv beta iota.
      split; [eauto|]. intros _ e' w1' H. injection H as <- <-. reflexivity.
Qed.

Lemma getAll_never_rejects_witness :
  cached Demo.env (st (Demo.world [])) = None
  /\ getAll_load Demo.env [("profile", JStr "offline")] (JStr "offline")
       (Demo.world [])
     = (Rejected (Failure (JStr "offline")), Demo.world [])
  /\ run (getAll Demo.env [("profile", JStr "offline")]) (Demo.world [])
     = (Done None, mkWorld (E := Demo.env) [] [] [Failure (JStr "offline")]).
Proof.
  split; [reflexivity|]. split; [reflexivity|].
  apply (proj2 (getAll_never_rejects Demo.env [("profile", JStr "offline")]
                  (Demo.world [])) eq_refl (Failure (JStr "offline"))
               (Demo.world [])).
  reflexivity.
Defined.



(** C8. An entry whose name is in no store and has no built-in default is
    skipped: its promise is fulfilled after the two lookups, nothing is
    saved and nothing is announced.  So in a batch whose other promises
    are fulfilled the operation is fulfilled, and the [changed] event
    carries that entry as it came in. *)
Theorem unknown_entry_is_skipped :
  forall (E : Env) (object : Obj) (useDefault : option (Model E)),
    no_model E (get_prop "name" object) ->
    (forall w : World E,
        exists s1 c s2,
          base_getModel E (JObj [("name", get_prop "name" object)]) (st w)
          = (Fulfilled None, s1) /\
          base_changeDatabase_new E (JObj [("name", get_prop "name" object)]) s1
          = (c, s2) /\
          coll_getDefault E c (get_prop "name" object) s2 = None /\
          saveObject E object useDefault w
          = (Fulfilled (JUndefined, object), with_st E w s2))
    /\ (forall (objects : Objects) (w w0 w1 : World E)
               (objs : list (string * Obj))
               (backup saves : list (Async E Saved))
               (outs : list (Settled Saved)) (k : string),
           saveObjects_start E objects useDefault w
           = (Returned (objs, backup, saves), w0) ->
           run_all (backup ++ saves) w0 = (outs, w1) ->
           get_own k objs = Some object ->
           forallb is_fulfilled (firstn (List.length backup) outs) = true ->
           Forall2 (fun kv o => fst kv = k \/ is_fulfilled o = true)
                   (own_entries objs) (skipn (List.length backup) outs) ->
           exists payload,
             run (saveObjects E objects useDefault) w
             = (Done JUndefined,
                mkWorld (st w1) (events w ++ [Ev_changed payload]) (console w))
             /\ get_own k payload = Some object).
Proof.
  intros E object useDefault Hno. split.
  { intros w. apply saveObject_skips. exact Hno. }
  intros objects w w0 w1 objs backup saves outs k Hstart Hall Hk Hfirst Hrest.
  destruct (saveObjects_start_spec E objects useDefault w w0 _ Hstart)
    as [_ [_ Hsaves]].
  (* the outcomes, split as the promises are *)
  pose proof Hall as Hsplit. rewrite run_all_app in Hsplit.
  injection Hsplit as Houts _.
  set (outs_b := fst (run_all backup w0)) in *.
  set (outs_s := fst (run_all saves (snd (run_all backup w0)))) in *.
  assert (Hlen : List.length outs_b = List.length backup)
    by apply run_all_length.
  rewrite <- Houts in Hfirst, Hrest.
  rewrite (firstn_length_app _ _ _ Hlen) in Hfirst.
  rewrite (skipn_length_app _ _ _ Hlen) in Hrest.
  (* every outcome of an entry is fulfilled, the skipped one untouched *)
  assert (Hentries :
            Forall2 (fun kv o => is_fulfilled o = true /\
                                 (fst kv = k -> exists r, o = Fulfilled r /\
                                                          snd r = object))
                    (own_entries objs) outs_s).
  { apply (Forall2_meet
             (fun kv => get_own (fst kv) objs = Some (snd kv))
             (fun kv o => exists w', o = fst (saveObject E (snd kv) useDefault w'))
             (fun kv o => fst kv = k \/ is_fulfilled o = true)).
    - intros [k' v] o Hkv [w' Ho] Hor. simpl in *.
      assert (Hskip : k' = k -> o = Fulfilled (JUndefined, object)).
      { intros ->. assert (v = object) as -> by congruence.
        destruct (saveObject_skips E object useDefault w' Hno)
          as [s1 [c [s2 [_ [_ [_ Hrun]]]]]].
        rewrite Ho, Hrun. reflexivity. }
      split.
      + destruct Hor as [Heq|Hok]; [|exact Hok].
        rewrite (Hskip Heq). reflexivity.
      + intros Heq. exists (JUndefined, object). auto.
    - apply Forall_forall. intros [k' v] Hkv.
      apply own_entries_spec. exact Hkv.
    - subst outs_s. rewrite Hsaves. apply run_all_map.
    - exact Hrest. }
  assert (Hok : forallb is_fulfilled outs = true).
  { rewrite <- Houts, forallb_app, Hfirst. simpl.
    apply (Forall2_fulfilled _ _ _ Hentries). intros x o [H _]. exact H. }
  destruct (saveObjects_all_fulfilled E objects useDefault w w0 w1 objs
              backup saves outs Hstart Hall Hok) as [results [Hres Hrun]].
  eexists. split; [exact Hrun|].
  apply saved_batch_keeps; [exact Hk|].
  (* the results of the entries *)
  rewrite <- Houts in Hres. symmetry in Hres.
  apply map_eq_app in Hres. destruct Hres as [rb [rs [-> [Hrb Hrs]]]].
  assert (Hlenb : List.length rb = List.length backup).
  { rewrite <- Hlen, <- Hrb. symmetry. apply length_map. }
  rewrite (skipn_length_app _ _ _ Hlenb).
  rewrite <- Hrs in Hentries. clear - Hentries.
  remember (own_entries objs) as entries eqn:He. clear He.
  revert entries Hentries. induction rs as [|r rs IH]; intros entries H;
    inversion H; subst; constructor.
  - intros Heq. match goal with
                | Hx : _ /\ _ |- _ => destruct Hx as [_ Hx];
                                      destruct (Hx Heq) as [r' [Hr' <-]]
                end.
    congruence.
  - apply IH. assumption.
Qed.

Lemma unknown_entry_witness :
  let object := Demo.entry "plugin" (JNum 1) in
  let batch := AsArray [Demo.entry "theme" (JStr "dark"); object] in
  no_model Demo.env (JStr "plugin")
  /\ saveObject Demo.env object None (Demo.world Demo.stored)
     = (Fulfilled (JUndefined, object), Demo.world Demo.stored)
  /\ exists payload,
       run (saveObjects Demo.env batch None) (Demo.world Demo.stored)
       = (Done JUndefined,
          mkWorld (E := Demo.env)
            (set_prop "theme" (JStr "dark") Demo.stored)
            [Ev_changed payload] [])
       /\ get_own "plugin" payload = Some object.
Proof.
  cbv zeta.
  assert (Hno : no_model Demo.env (get_prop "name" (Demo.entry "plugin" (JNum 1)))).
  { intros s. exists s, tt, s. repeat split; reflexivity. }
  destruct (unknown_entry_is_skipped Demo.env (Demo.entry "plugin" (JNum 1))
              None Hno) as [Hskip Hbatch].
  split; [exact Hno|]. split.
  - destruct (Hskip (Demo.world Demo.stored)) as [s1 [c [s2 [H1 [H2 [_ H]]]]]].
    rewrite H. injection H1 as <-. injection H2 as _ <-. reflexivity.
  - destruct (Hbatch
                (AsArray [Demo.entry "theme" (JStr "dark");
                          Demo.entry "plugin" (JNum 1)])
                (Demo.world Demo.stored) _ _ _ _ _ _ "plugin"
                eq_refl eq_refl eq_refl eq_refl)
      as [payload [Hrun Hget]].
    + constructor; [right; reflexivity|].
      constructor; [left; reflexivity | constructor].
    + exists payload. split; [|exact Hget]. rewrite Hrun. reflexivity.
Defined.

(** * Further properties *)

(** X1. Saving an empty array saves nothing and still announces
    [changed] with the empty batch. *)
Theorem saveObjects_empty_batch :
  forall (E : Env) (useDefault : option (Model E)) (w : World E),
    run (saveObjects E (AsArray []) useDefault) w
    = (Done JUndefined,
       mkWorld (st w) (events w ++ [Ev_changed []]) (console w)).
Proof.
  intros E useDefault w. reflexivity.
Qed.

(** X2. The snapshot taken at save time holds stored values only: under
    every key the value the configs have now, never the incoming one; the
    one exception is [encryptPass], which may be null. *)
Theorem snapshot_holds_stored_values :
  forall (E : Env) (configs : Obj) (objects : list (string * Obj))
         (changed : list JSValue) (fresh : Obj),
    snapshot E configs objects changed = Returned fresh ->
    forall k v,
      get_own k fresh = Some v ->
      get_own k configs = Some v \/ (k = "encryptPass" /\ v = JNull).
Proof.
  intros E configs objects changed fresh Hsnap k v Hk.
  unfold snapshot, pick in Hsnap.
  destruct (pick_into E [] configs changed) as [picked|e] eqn:Hpick;
    [|discriminate Hsnap].
  assert (Hfrom : forall k v, get_own k picked = Some v ->
                              get_own k configs = Some v).
  { apply (pick_into_from_obj E configs changed [] picked); [|exact Hpick].
    intros k' v' H. discriminate H. }
  simpl in Hsnap.
  destruct (get_own "encryptPass" objects) as [entry|].
  - destruct (toString E (get_prop "encryptPass" configs)) as [a|e];
      [|discriminate Hsnap].
    destruct (toString E (get_prop "value" entry)) as [b|e];
      [|discriminate Hsnap].
    simpl in Hsnap. injection Hsnap as <-.
    destruct (String.eqb a b); [|left; apply Hfrom; exact Hk].
    rewrite get_own_set_prop in Hk.
    destruct (String.eqb_spec k "encryptPass") as [->|Hne].
    + right. split; [reflexivity | congruence].
    + left. apply Hfrom. exact Hk.
  - injection Hsnap as <-. left. apply Hfrom. exact Hk.
Qed.

Lemma snapshot_witness :
  let objects := [("encrypt", Demo.entry "encrypt" (JNum 1))] in
  snapshot Demo.env Demo.stored objects [JStr "encrypt"]
  = Returned [("encrypt", JNum 0)]
  /\ (get_own "encrypt" Demo.stored = Some (JNum 0)
      \/ ("encrypt" = "encryptPass" /\ JNum 0 = JNull)).
Proof.
  cbv zeta. split; [reflexivity|].
  apply (snapshot_holds_stored_values Demo.env Demo.stored
           [("encrypt", Demo.entry "encrypt" (JNum 1))] [JStr "encrypt"]
           [("encrypt", JNum 0)] eq_refl "encrypt" (JNum 0) eq_refl).
Defined.

(** X3. A password is saved as its sha256: when the model says the data
    is a password, the inherited [saveModel] receives the data with
    [value] replaced by the digest, and is not called when the digest
    fails. *)
Theorem passwords_saved_as_sha256 :
  forall (E : Env) (m : Model E) (data : Obj) (w : World E),
    model_isPassword E m data (st w) = true ->
    run (saveModel E (Some m) data) w
    = match encrypt_sha256 E (get_prop "value" data) (st w) with
      | (Fulfilled digest, s1) =>
          let data' := set_prop "value" digest data in
          match base_saveModel E m data' s1 with
          | (Fulfilled r, s2) => (Done (r, data'), with_st E w s2)
          | (Rejected e, s2) => (Failed e, with_st E w s2)
          end
      | (Rejected e, s1) => (Failed e, with_st E w s1)
      end.
Proof.
  intros E m data w Hpw.
  unfold run, saveModel, bind, read. rewrite Hpw. simpl.
  unfold then_, promise_of, ret, saveFunc, then_, promise_of, resolved.
  destruct (encrypt_sha256 E (get_prop "value" data) (st w)) as [[d|e] s1];
    [|reflexivity].
  simpl.
  destruct (base_saveModel E m (set_prop "value" d data) s1) as [[r|e] s2];
    reflexivity.
Qed.

Lemma passwords_witness :
  model_isPassword Demo.env ("encryptPass", JStr "pw")
    (Demo.entry "encryptPass" (JStr "secret")) Demo.stored = true
  /\ run (saveModel Demo.env (Some ("encryptPass", JStr "pw"))
            (Demo.entry "encryptPass" (JStr "secret")))
         (Demo.world Demo.stored)
     = (Done (JUndefined, Demo.entry "encryptPass" (JStr "sha256:secret")),
        Demo.world (set_prop "encryptPass" (JStr "sha256:secret") Demo.stored)).
Proof.
  split; [reflexivity|].
  exact (eq_trans
           (passwords_saved_as_sha256 Demo.env ("encryptPass", JStr "pw")
              (Demo.entry "encryptPass" (JStr "secret"))
              (Demo.world Demo.stored) eq_refl)
           eq_refl).
Defined.

(** X4. [_backupEncryption] only ever assigns the key [encryptBackup] of
    the batch: every other entry is read back as it was, no key is lost,
    and the world is not touched, also when it throws. *)
Theorem backupEncryption_assigns_backup_only :
  forall (E : Env) (objects : list (string * Obj)) (w w' : World E)
         (r : Exc (list (string * Obj))),
    _backupEncryption E objects w = (r, w') ->
    w' = w /\
    match r with
    | Returned objects' =>
        (forall k, k <> "encryptBackup" ->
                   get_own k objects' = get_own k objects) /\
        (forall k, In k (map fst objects) -> In k (map fst objects'))
    | Threw _ => True
    end.
Proof.
  intros E objects w w' r Hrun.
  rewrite backupEncryption_steps in Hrun.
  assert (Hset : forall entry,
             (forall k, k <> "encryptBackup" ->
                        get_own k (set_prop "encryptBackup" entry objects)
                        = get_own k objects) /\
             (forall k, In k (map fst objects) ->
                        In k (map fst (set_prop "encryptBackup" entry objects)))).
  { intros entry. split; intros k Hk.
    - rewrite get_own_set_prop.
      destruct (String.eqb_spec k "encryptBackup"); [contradiction|reflexivity].
    - apply get_own_In_fst. rewrite get_own_set_prop.
      destruct (String.eqb k "encryptBackup"); [discriminate|].
      apply get_own_In_fst. exact Hk. }
  destruct (_getEncryption (ObjectOf (as_object objects))) as [enc|e].
  - destruct (pluck "name" enc) as [|n ns].
    + injection Hrun as <- <-. auto.
    + destruct (this_collection E (st w)) as [c|].
      * cbv zeta in Hrun.
        destruct (snapshot E (coll_getConfigs E c (st w)) objects (n :: ns));
          injection Hrun as <- <-; (split; [reflexivity|]);
          [apply Hset | exact I].
      * injection Hrun as <- <-. auto.
  - injection Hrun as <- <-. auto.
Qed.

Lemma backupEncryption_assigns_witness :
  let objects := [("encrypt", Demo.entry "encrypt" (JNum 1))] in
  exists objects',
    _backupEncryption Demo.env objects (Demo.world Demo.stored)
    = (Returned objects', Demo.world Demo.stored)
    /\ get_own "encrypt" objects' = Some (Demo.entry "encrypt" (JNum 1))
    /\ In "encrypt" (map fst objects').
Proof.
  cbv zeta. eexists. split; [reflexivity|].
  destruct (backupEncryption_assigns_backup_only Demo.env
              [("encrypt", Demo.entry "encrypt" (JNum 1))]
              (Demo.world Demo.stored) _ _ eq_refl) as [_ [Hget Hin]].
  split.
  - rewrite Hget; [reflexivity | discriminate].
  - apply Hin. left. reflexivity.
Defined.

(** X5. Saving an array that sets [encryptPass] needs both passwords as
    text: when the stored password, or else the incoming one, is undefined
    or null, [saveObjects] throws before anything is saved or announced. *)
Theorem saveObjects_needs_password_text :
  forall (E : Env) (entries : list Obj) (useDefault : option (Model E))
         (w : World E) (keyed : list (string * Obj)) (c : Coll E)
         (entry : Obj) (e : JSError),
    indexBy_name E [] entries = Returned keyed ->
    this_collection E (st w) = Some c ->
    get_own "encryptPass" keyed = Some entry ->
    names_encryption entry = true ->
    (toString E (get_prop "encryptPass" (coll_getConfigs E c (st w))) = Threw e
     \/ (exists text,
            toString E (get_prop "encryptPass" (coll_getConfigs E c (st w)))
            = Returned text) /\
        toString E (get_prop "value" entry) = Threw e) ->
    run (saveObjects E (AsArray entries) useDefault) w = (Raised e, w).
Proof.
  intros E entries u w keyed c entry e Hkeyed Hc Hpass Hname Htext.
  apply saveObjects_raised.
  unfold saveObjects_start, bind, ret, lift_exc. rewrite Hkeyed.
  rewrite backupEncryption_steps, getEncryption_entries.
  destruct (selected_entry_changes keyed "encryptPass" entry Hpass Hname)
    as [n [ns Hpl]].
  rewrite Hpl, Hc. cbv zeta.
  destruct (pick_into_strings E _ (changed_names_are_strings keyed)
              [] (coll_getConfigs E c (st w))) as [picked Hpick].
  rewrite <- pluck_entries, Hpl in Hpick.
  unfold snapshot, pick. rewrite Hpick. cbn [exc_bind]. rewrite Hpass.
  destruct Htext as [Hcur | [[text Hcur] Hinc]].
  - rewrite Hcur. reflexivity.
  - rewrite Hcur, Hinc. reflexivity.
Qed.

Lemma saveObjects_password_witness :
  let entries := [Demo.entry "encryptPass" (JStr "secret")] in
  indexBy_name Demo.env [] entries = Returned [("encryptPass", Demo.entry "encryptPass" (JStr "secret"))]
  /\ toString Demo.env (get_prop "encryptPass" []) = Threw TypeError
  /\ run (saveObjects Demo.env (AsArray entries) None) (Demo.world [])
     = (Raised TypeError, Demo.world []).
Proof.
  cbv zeta. split; [reflexivity|]. split; [reflexivity|].
  apply (saveObjects_needs_password_text Demo.env
           [Demo.entry "encryptPass" (JStr "secret")] None (Demo.world [])
           [("encryptPass", Demo.entry "encryptPass" (JStr "secret"))] tt
           (Demo.entry "encryptPass" (JStr "secret")) TypeError);
    try reflexivity.
  left. reflexivity.
Defined.

(** X6. A keyed batch that sets [useDefaultConfigs] needs the profile's
    model: without it [saveObjects] throws at once and the world stays as
    it was. *)
Theorem saveObjects_flag_needs_handle :
  forall (E : Env) (batch : list (string * Obj)) (entry : Obj) (w : World E),
    get_own "useDefaultConfigs" batch = Some entry ->
    run (saveObjects E (AsMap batch) None) w = (Raised TypeError, w).
Proof.
  intros E batch entry w Hflag.
  apply saveObjects_raised.
  unfold saveObjects_start, bind. rewrite Hflag. reflexivity.
Qed.

Lemma saveObjects_flag_witness :
  let batch := [("useDefaultConfigs", Demo.entry "useDefaultConfigs" (JNum 0))] in
  get_own "useDefaultConfigs" batch
  = Some (Demo.entry "useDefaultConfigs" (JNum 0))
  /\ run (saveObjects Demo.env (AsMap batch) None) (Demo.world Demo.stored)
     = (Raised TypeError, Demo.world Demo.stored).
Proof.
  cbv zeta. split; [reflexivity|].
  apply (saveObjects_flag_needs_handle Demo.env _
           (Demo.entry "useDefaultConfigs" (JNum 0))).
  reflexivity.
Defined.



(** X8. Loading announces at most one thing: whatever the collaborators
    do, [getAll] adds no event, or [collection:empty] once, and prints at
    most one error; it never announces [changed] or [removed:profile]. *)
Theorem getAll_announces_at_most_collection_empty :
  forall (E : Env) (options : Obj) (w : World E),
    at_most_collection_empty w (snd (run (getAll E options) w))
    /\ (console (snd (run (getAll E options) w)) = console w
        \/ exists e,
             console (snd (run (getAll E options) w)) = console w ++ [e])%list.
Proof.
  intros E options w.
  unfold run, getAll, bind, read, ret.
  destruct (cached E (st w)) as [c|].
  - simpl. split; left; reflexivity.
  - cbv zeta. unfold fail_.
    destruct (getAll_load_announces E options
                (profile_or_default options (this_defaultDB E (st w))) w)
      as [Hev Hco].
    destruct (getAll_load E options _ w) as [[v|e] w1]; simpl in *.
    + split; [exact Hev | left; exact Hco].
    + split; [exact Hev | right; exists e; rewrite Hco; reflexivity].
Qed.

(** X9. An entry named [useDefaultConfigs] is saved on the model handed
    to [saveObjects], whichever model the lookup found: the outcome is
    that of [saveModel] on the handed model.  Without a handed model the
    entry's promise is rejected with a TypeError after the lookup, and
    nothing is saved. *)
Theorem flag_entry_saved_on_handle :
  forall (E : Env) (object : Obj) (useDefault : option (Model E))
         (found : Model E) (w w1 : World E),
    get_prop "name" object = JStr "useDefaultConfigs" ->
    getModel E (JObj [("name", JStr "useDefaultConfigs")]) w
    = (Fulfilled (Some found), w1) ->
    saveObject E object useDefault w
    = match saveModel E useDefault object w1 with
      | (Returned p, w2) => p w2
      | (Threw e, w2) => (Rejected e, w2)
      end
    /\ (useDefault = None ->
        saveObject E object useDefault w = (Rejected TypeError, w1)).
Proof.
  intros E object u found w w1 Hname Hfound.
  assert (Hrun : saveObject E object u w
                 = match saveModel E u object w1 with
                   | (Returned p, w2) => p w2
                   | (Threw e, w2) => (Rejected e, w2)
                   end).
  { unfold saveObject. rewrite Hname. unfold then_ at 1. rewrite Hfound.
    reflexivity. }
  split; [exact Hrun|]. intros ->. rewrite Hrun. reflexivity.
Qed.

Lemma flag_entry_witness :
  let object := Demo.entry "useDefaultConfigs" (JNum 0) in
  getModel Demo.env (JObj [("name", JStr "useDefaultConfigs")])
    (Demo.world Demo.stored)
  = (Fulfilled (Some ("useDefaultConfigs", JNum 1)), Demo.world Demo.stored)
  /\ saveObject Demo.env object None (Demo.world Demo.stored)
     = (Rejected TypeError, Demo.world Demo.stored).
Proof.
  cbv zeta. split; [reflexivity|].
  apply (proj2 (flag_entry_saved_on_handle Demo.env
                  (Demo.entry "useDefaultConfigs" (JNum 0)) None
                  ("useDefaultConfigs", JNum 1)
                  (Demo.world Demo.stored) (Demo.world Demo.stored)
                  eq_refl eq_refl)).
  reflexivity.
Defined.

(** X10. Creating the defaults is idempotent on a complete collection:
    when the collection reports no new configs, [_createDefault] is
    fulfilled with it at once; nothing is migrated, created, reloaded or
    announced. *)
Theorem createDefault_on_complete_collection :
  forall (E : Env) (options : Obj) (w : World E) (c : Coll E),
    this_collection E (st w) = Some c ->
    coll_hasNewConfigs E c (st w) = false ->
    run (_createDefault E options) w = (Done (Some c), w).
Proof.
  intros E options w c Hc Hnew.
  unfold run, _createDefault, bind, the_collection, read.
  rewrite Hc, Hnew. reflexivity.
Qed.

Lemma createDefault_complete_witness :
  this_collection Demo.env (st (Demo.world Demo.configNames)) = Some tt
  /\ coll_hasNewConfigs Demo.env tt Demo.configNames = false
  /\ run (_createDefault Demo.env []) (Demo.world Demo.configNames)
     = (Done (Some tt), Demo.world Demo.configNames).
Proof.
  split; [reflexivity|]. split; [reflexivity|].
  apply (createDefault_on_complete_collection Demo.env []
           (Demo.world Demo.configNames) tt); reflexivity.
Defined.

(** X11. On an incomplete collection [_createDefault] announces
    [collection:empty] first, if the collection has no model at all, and
    then runs its steps in order, each only after the one before has
    succeeded: the migration from local storage, the creation of the
    defaults (handed the migration's result), [reset:all] on the
    collection then set, and the inherited [getAll].  A step that fails
    rejects the operation and the later steps do not run; in particular
    no defaults are created after a failed migration.  On success the
    promise is fulfilled with the collection the call started with. *)
Theorem createDefault_steps :
  forall (E : Env) (options : Obj) (w : World E) (c : Coll E),
    this_collection E (st w) = Some c ->
    coll_hasNewConfigs E c (st w) = true ->
    run (_createDefault E options) w
    = let announced :=
        (events w ++ if Nat.eqb (coll_length E c (st w)) 0
                     then [Ev_collection_empty] else [])%list in
      let after s := mkWorld s announced (console w) in
      match coll_migrateFromLocal E c (st w) with
      | (Rejected e, s1) => (Failed e, after s1)
      | (Fulfilled migrated, s1) =>
          match coll_createDefault E c migrated s1 with
          | (Rejected e, s2) => (Failed e, after s2)
          | (Fulfilled _, s2) =>
              match this_collection E s2 with
              | None => (Failed TypeError, after s2)
              | Some c' =>
                  match base_getAll E options
                          (coll_trigger_reset_all E c' s2) with
                  | (Rejected e, s3) => (Failed e, after s3)
                  | (Fulfilled _, s3) => (Done (Some c), after s3)
                  end
              end
          end
      end.
Proof.
  intros E options w c Hc Hnew.
  unfold run, _createDefault, bind, the_collection, read.
  rewrite Hc, Hnew. cbv zeta. cbn [negb].
  unfold thenResolve, then_, promise_of, ret, resolved, update, with_st,
    trigger, bind, the_collection.
  destruct (Nat.eqb (coll_length E c (st w)) 0); cbn [st events console].
  - destruct (coll_migrateFromLocal E c (st w)) as [[r|e] s1];
      cbn [st events console]; [|reflexivity].
    destruct (coll_createDefault E c r s1) as [[r2|e] s2];
      cbn [st events console]; [|reflexivity].
    destruct (this_collection E s2) as [c'|];
      cbn [st events console]; [|reflexivity].
    destruct (base_getAll E options _) as [[r3|e] s3]; reflexivity.
  - rewrite app_nil_r.
    destruct (coll_migrateFromLocal E c (st w)) as [[r|e] s1];
      cbn [st events console]; [|reflexivity].
    destruct (coll_createDefault E c r s1) as [[r2|e] s2];
      cbn [st events console]; [|reflexivity].
    destruct (this_collection E s2) as [c'|];
      cbn [st events console]; [|reflexivity].
    destruct (base_getAll E options _) as [[r3|e] s3]; reflexivity.
Qed.

Lemma createDefault_steps_witness :
  this_collection Demo.env (st (Demo.world [])) = Some tt
  /\ coll_hasNewConfigs Demo.env tt [] = true
  /\ run (_createDefault Demo.env []) (Demo.world [])
     = (Done (Some tt),
        mkWorld (E := Demo.env) Demo.configNames [Ev_collection_empty] []).
Proof.
  split; [reflexivity|]. split; [reflexivity|].
  exact (eq_trans
           (createDefault_steps Demo.env [] (Demo.world []) tt eq_refl eq_refl)
           eq_refl).
Defined.

(** X12. [_checkBackup] leaves the default profile's backup alone when
    the profile loaded is the default one, when no backup model is found,
    or when the backup found already has a value that is not empty: it
    is fulfilled with undefined right after the one lookup, and no model
    is assigned to or moved. *)
Theorem checkBackup_leaves_backup :
  forall (E : Env) (profile : JSValue) (w w1 : World E)
         (backup : option (Model E)),
    getModel E (JObj [("name", JStr "encryptBackup")]) w
    = (Fulfilled backup, w1) ->
    (strict_eq_str profile (this_defaultDB E (st w1)) = true
     \/ backup = None
     \/ exists b, backup = Some b /\
                  isEmpty (model_get E b "value" (st w1)) = false) ->
    _checkBackup E profile w = (Fulfilled None, w1).
Proof.
  intros E profile w w1 backup Hbackup Hcase.
  unfold _checkBackup. unfold then_ at 1. rewrite Hbackup.
  unfold bind, read.
  destruct (strict_eq_str profile (this_defaultDB E (st w1))); [reflexivity|].
  destruct Hcase as [H | [-> | [b [-> Hvalue]]]];
    [discriminate H | reflexivity |].
  rewrite Hvalue. reflexivity.
Qed.

Lemma checkBackup_leaves_witness :
  getModel Demo.env (JObj [("name", JStr "encryptBackup")])
    (Demo.world Demo.stored)
  = (Fulfilled (Some ("encryptBackup", JObj [("encrypt", JNum 1)])),
     Demo.world Demo.stored)
  /\ isEmpty (JObj [("encrypt", JNum 1)]) = false
  /\ _checkBackup Demo.env (JStr "work") (Demo.world Demo.stored)
     = (Fulfilled None, Demo.world Demo.stored).
Proof.
  split; [reflexivity|]. split; [reflexivity|].
  apply (checkBackup_leaves_backup Demo.env (JStr "work")
           (Demo.world Demo.stored) (Demo.world Demo.stored)
           (Some ("encryptBackup", JObj [("encrypt", JNum 1)])) eq_refl).
  right. right. eexists. split; reflexivity.
Defined.

(** X13. When another profile is loaded and the backup found is empty,
    [_checkBackup] fetches that profile's backup.  If this one has a
    value, the first backup model is assigned its JSON and then moved to
    the profile; if it is empty too, nothing is changed; either way the
    promise is fulfilled with the profile's model.  If no model comes
    back for the profile, the promise is rejected with a TypeError. *)
Theorem checkBackup_takes_profile_backup :
  forall (E : Env) (profile : JSValue) (w w1 w2 : World E) (b : Model E)
         (found : option (Model E)),
    getModel E (JObj [("name", JStr "encryptBackup")]) w
    = (Fulfilled (Some b), w1) ->
    strict_eq_str profile (this_defaultDB E (st w1)) = false ->
    isEmpty (model_get E b "value" (st w1)) = true ->
    getModel E (JObj [("name", JStr "encryptBackup"); ("profile", profile)]) w1
    = (Fulfilled found, w2) ->
    _checkBackup E profile w
    = match found with
      | None => (Rejected TypeError, w2)
      | Some m =>
          if isEmpty (model_get E m "value" (st w2))
          then (Fulfilled (Some m), w2)
          else (Fulfilled (Some m),
                with_st E w2
                  (model_changeDB E b profile
                     (model_set E b (model_toJSON E m (st w2)) (st w2))))
      end.
Proof.
  intros E profile w w1 w2 b found Hbackup Hother Hempty Hfound.
  unfold _checkBackup. unfold then_ at 1. rewrite Hbackup.
  unfold bind at 1, read at 1. rewrite Hother.
  unfold bind at 1, read at 1. rewrite Hempty. cbn [negb].
  unfold ret at 1. unfold then_ at 1. rewrite Hfound.
  destruct found as [m|]; [|reflexivity].
  unfold bind, read, update, ret, resolved, with_st.
  destruct (isEmpty (model_get E m "value" (st w2))); cbn [negb].
  - destruct w2; reflexivity.
  - reflexivity.
Qed.

Lemma checkBackup_takes_witness :
  let s := [("encryptBackup", JObj [])] in
  getModel Demo.env (JObj [("name", JStr "encryptBackup")]) (Demo.world s)
  = (Fulfilled (Some ("encryptBackup", JObj [])), Demo.world s)
  /\ strict_eq_str (JStr "work") (this_defaultDB Demo.env s) = false
  /\ _checkBackup Demo.env (JStr "work") (Demo.world s)
     = (Fulfilled (Some ("encryptBackup", JObj [])), Demo.world s).
Proof.
  cbv zeta. split; [reflexivity|]. split; [reflexivity|].
  exact (eq_trans
           (checkBackup_takes_profile_backup Demo.env (JStr "work")
              (Demo.world [("encryptBackup", JObj [])])
              (Demo.world [("encryptBackup", JObj [])])
              (Demo.world [("encryptBackup", JObj [])])
              ("encryptBackup", JObj [])
              (Some ("encryptBackup", JObj []))
              eq_refl eq_refl eq_refl eq_refl)
           eq_refl).
Defined.

(** X14. Without an [encryptBackup] model in the collection neither
    [resetEncrypt] nor [_backupEncrypt] can work: both throw a TypeError
    and leave the world as it was; in particular no model is moved to
    another database. *)
Theorem backup_model_is_required :
  forall (E : Env) (profile : JSValue) (w : World E) (c : Coll E),
    this_collection E (st w) = Some c ->
    coll_get E c "encryptBackup" (st w) = None ->
    resetEncrypt E w = (Threw TypeError, w)
    /\ _backupEncrypt E profile w = (Threw TypeError, w).
Proof.
  intros E profile w c Hc Hnone. split.
  - unfold resetEncrypt, bind, the_collection, read.
    rewrite Hc, Hnone. reflexivity.
  - unfold _backupEncrypt, bind, the_collection, read, lift_exc.
    rewrite Hc.
    destruct (_getEncryption (ArrayOf (coll_pluck_name E c (st w))))
      as [enc|e] eqn:Henc.
    + rewrite Hnone. reflexivity.
    + apply getEncryption_throws_TypeError in Henc. subst e. reflexivity.
Qed.

Lemma backup_model_witness :
  this_collection Demo.env (st (Demo.world [])) = Some tt
  /\ coll_get Demo.env tt "encryptBackup" [] = None
  /\ resetEncrypt Demo.env (Demo.world []) = (Threw TypeError, Demo.world [])
  /\ _backupEncrypt Demo.env (JStr "work") (Demo.world [])
     = (Threw TypeError, Demo.world []).
Proof.
  split; [reflexivity|]. split; [reflexivity|].
  apply (backup_model_is_required Demo.env (JStr "work") (Demo.world []) tt);
    reflexivity.
Defined.



(** X16. An array batch is keyed by name with the last entry of each
    name: the keyed batch has every key once; each of its entries is an
    entry of the array, filed under the key its own name gives; of
    several entries with one name the last is the one kept; and an entry
    named [__proto__] gives the batch no key, so no save is made for
    it. *)
Theorem array_batch_keeps_last_entry :
  forall (E : Env) (entries : list Obj) (keyed : list (string * Obj)),
    indexBy_name E [] entries = Returned keyed ->
    NoDup (map fst keyed)
    /\ get_own "__proto__" keyed = None
    /\ (forall k e, get_own k keyed = Some e ->
                    In e entries /\
                    to_key E (get_prop "name" e) = Returned k)
    /\ (forall before entry after k,
           entries = (before ++ entry :: after)%list ->
           to_key E (get_prop "name" entry) = Returned k ->
           k <> "__proto__" ->
           (forall e, In e after ->
                      to_key E (get_prop "name" e) <> Returned k) ->
           get_own k keyed = Some entry).
Proof.
  intros E entries keyed Hrun.
  destruct (indexBy_name_spec E entries [] keyed Hrun)
    as [Hnd [Hnone Hfrom]].
  split; [apply Hnd; constructor|]. split; [apply Hnone; reflexivity|].
  split.
  - intros k e He. destruct (Hfrom k e He) as [H|H]; [discriminate H|exact H].
  - intros before entry after k -> Hkey Hproto Hafter.
    rewrite indexBy_name_app in Hrun.
    destruct (indexBy_name E [] before) as [r|e]; [|discriminate Hrun].
    simpl in Hrun. rewrite Hkey in Hrun. simpl in Hrun.
    destruct (String.eqb_spec k "__proto__") as [Heq|_];
      [contradiction|].
    rewrite (indexBy_name_other_keys E after k _ _ Hrun Hafter).
    rewrite get_own_set_prop, String.eqb_refl. reflexivity.
Qed.

Lemma array_batch_witness :
  let first := Demo.entry "theme" (JStr "dark") in
  let proto := Demo.entry "__proto__" (JStr "x") in
  let last := Demo.entry "theme" (JStr "light") in
  indexBy_name Demo.env [] [first; proto; last] = Returned [("theme", last)]
  /\ to_key Demo.env (get_prop "name" last) = Returned "theme"
  /\ get_own "theme" [("theme", last)] = Some last
  /\ get_own "__proto__" [("theme", last)] = None.
Proof.
  cbv zeta. split; [reflexivity|]. split; [reflexivity|].
  destruct (array_batch_keeps_last_entry Demo.env
              [Demo.entry "theme" (JStr "dark");
               Demo.entry "__proto__" (JStr "x");
               Demo.entry "theme" (JStr "light")]
              [("theme", Demo.entry "theme" (JStr "light"))] eq_refl)
    as [_ [Hnone [_ Hlast]]].
  split; [|exact Hnone].
  apply (Hlast [Demo.entry "theme" (JStr "dark");
                Demo.entry "__proto__" (JStr "x")]
               (Demo.entry "theme" (JStr "light")) []);
    [reflexivity | reflexivity | discriminate | intros e []].
Defined.

(** X17. What the [changed] event carries is the batch up to hashed
    values: when every promise of [saveObjects] is fulfilled, each entry
    of the payload is the batch's entry under the same key, either as it
    was or with only its [value] replaced (which is what saving a
    password does). *)
Theorem changed_payload_is_the_batch :
  forall (E : Env) (objects : Objects) (useDefault : option (Model E))
         (w w0 w1 : World E) (objs : list (string * Obj))
         (backup saves : list (Async E Saved)) (outs : list (Settled Saved)),
    saveObjects_start E objects useDefault w
    = (Returned (objs, backup, saves), w0) ->
    run_all (backup ++ saves) w0 = (outs, w1) ->
    forallb is_fulfilled outs = true ->
    exists payload,
      run (saveObjects E objects useDefault) w
      = (Done JUndefined,
         mkWorld (st w1) (events w ++ [Ev_changed payload]) (console w))
      /\ map fst payload = map fst objs
      /\ forall k e',
           get_own k payload = Some e' ->
           exists e,
             get_own k objs = Some e /\
             (e' = e \/ exists digest, e' = set_prop "value" digest e).
Proof.
  intros E objects u w w0 w1 objs backup saves outs Hstart Hall Hok.
  destruct (saveObjects_all_fulfilled E objects u w w0 w1 objs backup saves
              outs Hstart Hall Hok) as [results [Hres Hrun]].
  eexists. split; [exact Hrun|]. split.
  { apply saved_batch_keys. intros [k v] Hkv.
    apply own_entries_spec in Hkv. apply get_own_In_fst. simpl. congruence. }
  destruct (saveObjects_start_spec E objects u w w0 _ Hstart)
    as [_ [_ Hsaves]].
  pose proof Hall as Hsplit. rewrite run_all_app in Hsplit.
  injection Hsplit as Houts _.
  pose proof (run_all_length backup w0) as Hlen.
  rewrite <- Houts in Hres. symmetry in Hres.
  apply map_eq_app in Hres. destruct Hres as [rb [rs [-> [Hrb Hrs]]]].
  assert (Hlenb : List.length rb = List.length backup).
  { rewrite <- Hlen, <- Hrb. symmetry. apply length_map. }
  rewrite (skipn_length_app _ _ _ Hlenb).
  apply (saved_batch_related
           (fun e e' => e' = e \/ exists digest, e' = set_prop "value" digest e)
           objs).
  - intros [k v] Hkv. apply own_entries_spec. exact Hkv.
  - pose proof (run_all_map (fun kv => saveObject E (snd kv) u)
                  (own_entries objs) (snd (run_all backup w0))) as Hmap.
    rewrite <- Hsaves, <- Hrs in Hmap. clear - Hmap.
    remember (own_entries objs) as entries eqn:He. clear He.
    revert entries Hmap. induction rs as [|[r data] rs IH]; intros entries H;
      inversion H; subst; constructor.
    + match goal with
      | Hx : exists _, _ |- _ => destruct Hx as [w' Hx]
      end.
      simpl. destruct (saveObject E (snd x) u w') as [o w''] eqn:Hrun.
      simpl in *. subst o. eapply saveObject_data. exact Hrun.
    + apply IH. assumption.
  - intros k e' He. exists e'. auto.
Qed.

Lemma changed_payload_witness :
  let batch := AsArray [Demo.entry "theme" (JStr "dark");
                        Demo.entry "encryptPass" (JStr "secret")] in
  exists payload,
    run (saveObjects Demo.env batch None) (Demo.world Demo.stored)
    = (Done JUndefined,
       mkWorld (E := Demo.env)
         [("useDefaultConfigs", JNum 1); ("encrypt", JNum 0);
          ("encryptPass", JStr "sha256:secret");
          ("encryptBackup",
           JObj [("encryptPass", JStr "pw"); ("encrypt", JNum 1)]);
          ("theme", JStr "dark")]
         [Ev_changed payload] [])
    /\ map fst payload = ["theme"; "encryptPass"; "encryptBackup"].
Proof.
  cbv zeta.
  destruct (changed_payload_is_the_batch Demo.env
              (AsArray [Demo.entry "theme" (JStr "dark");
                        Demo.entry "encryptPass" (JStr "secret")])
              None (Demo.world Demo.stored) _ _ _ _ _ _
              eq_refl eq_refl eq_refl)
    as [payload [Hrun [Hkeys _]]].
  exists payload. split; [exact Hrun | exact Hkeys].
Defined.

(** X18. [getProfiles] needs the [encryptBackup] model in the
    collection: without it the call throws a TypeError at once, handing
    back no promise, and leaves everything as it was, in the default
    profile and outside it. *)
Theorem getProfiles_needs_backup_model :
  forall (P : ProfilesEnv) (w : World P),
    (forall c, this_collection P (st w) = Some c ->
               coll_get P c "encryptBackup" (st w) = None) ->
    run (getProfiles P) w = (Raised TypeError, w).
Proof.
  intros P w H.
  unfold run, getProfiles, bind, the_collection, read, lift_exc, ret, throw.
  cbv beta iota.
  destruct (this_collection P (st w)) as [c|]; [|reflexivity].
  rewrite (H c eq_refl).
  destruct (get_member (coll_database P c (st w)) "id") as [current|e] eqn:Hid.
  - destruct (negb (strict_eq_str current (this_defaultDB P (st w))));
      reflexivity.
  - rewrite (get_member_throws _ _ _ Hid). reflexivity.
Qed.

Lemma getProfiles_backup_witness :
  run (getProfiles (Profiles.penv "work")) (Profiles.world "work" [])
  = (Raised TypeError, Profiles.world "work" []).
Proof.
  apply (getProfiles_needs_backup_model (Profiles.penv "work")
           (Profiles.world "work" [])).
  intros c _. reflexivity.
Defined.

(** X19. Outside the default profile, that is when the collection's
    database or the database of its [encryptBackup] model is not the
    default one, [getProfiles] answers with one database, the one of
    that [encryptBackup] model, without looking up any config and
    without changing anything. *)
Theorem getProfiles_outside_default_profile :
  forall (P : ProfilesEnv) (w : World P) (c : Coll P) (b : Model P)
         (current : JSValue),
    this_collection P (st w) = Some c ->
    coll_get P c "encryptBackup" (st w) = Some b ->
    get_member (coll_database P c (st w)) "id" = Returned current ->
    (strict_eq_str current (this_defaultDB P (st w)) = false \/
     exists id,
       get_member (model_database P b (st w)) "id" = Returned id /\
       strict_eq_str id (this_defaultDB P (st w)) = false) ->
    run (getProfiles P) w = (Done [model_database P b (st w)], w).
Proof.
  intros P w c b current Hc Hb Hcur Hout.
  unfold run, getProfiles, bind, the_collection, read, lift_exc, ret, throw.
  cbv beta iota. rewrite Hc, Hb, Hcur.
  destruct (strict_eq_str current (this_defaultDB P (st w))) eqn:Hdef;
    [|reflexivity].
  destruct Hout as [H | [id [Hid Hne]]]; [discriminate H|].
  cbn [negb]. rewrite Hid, Hne. reflexivity.
Qed.

Lemma getProfiles_outside_witness :
  run (getProfiles (Profiles.penv "work"))
      (Profiles.world "work" Profiles.stored)
  = (Done [Profiles.database "work"], Profiles.world "work" Profiles.stored).
Proof.
  apply (getProfiles_outside_default_profile (Profiles.penv "work")
           (Profiles.world "work" Profiles.stored) "work"
           ("work", ("encryptBackup", JObj [])) (JStr "work")
           eq_refl eq_refl eq_refl).
  left. reflexivity.
Defined.

(** X20. In the default profile [getProfiles] is the listing of
    [appProfiles]: with the collection and its [encryptBackup] model both
    in the default database, it looks up [appProfiles] and lists from the
    model found; when there is no such model, or the lookup fails, the
    promise is rejected (nothing is thrown). *)
Theorem getProfiles_in_default_profile :
  forall (P : ProfilesEnv) (w : World P) (c : Coll P) (b : Model P)
         (current id : JSValue),
    this_collection P (st w) = Some c ->
    coll_get P c "encryptBackup" (st w) = Some b ->
    get_member (coll_database P c (st w)) "id" = Returned current ->
    strict_eq_str current (this_defaultDB P (st w)) = true ->
    get_member (model_database P b (st w)) "id" = Returned id ->
    strict_eq_str id (this_defaultDB P (st w)) = true ->
    run (getProfiles P) w
    = match getModel P (JObj [("name", JStr "appProfiles")]) w with
      | (Fulfilled (Some m), w0) => run (_getDefaultProfiles P (Some m)) w0
      | (Fulfilled None, w0) => (Failed TypeError, w0)
      | (Rejected e, w0) => (Failed e, w0)
      end.
Proof.
  intros P w c b current id Hc Hb Hcur Hdef Hid Hbdef.
  unfold run at 1.
  unfold getProfiles, bind, the_collection, read, lift_exc, ret, throw.
  cbv beta iota. rewrite Hc, Hb, Hcur, Hdef. cbn [negb].
  rewrite Hid, Hbdef. cbn [negb]. unfold then_ at 1.
  destruct (getModel P (JObj [("name", JStr "appProfiles")]) w)
    as [[[m|]|e] w0]; [|reflexivity|reflexivity].
  unfold run, _getDefaultProfiles, bind, read, ret. cbv beta iota.
  destruct (then_ _ _ w0) as [[a|e] w1]; reflexivity.
Qed.

Lemma getProfiles_default_witness :
  run (getProfiles (Profiles.penv "notes-db"))
      (Profiles.world "notes-db" Profiles.stored)
  = (Done [Profiles.database "notes-db"; Profiles.database "travel"],
     Profiles.world "notes-db" Profiles.stored).
Proof.
  exact (eq_trans
           (getProfiles_in_default_profile (Profiles.penv "notes-db")
              (Profiles.world "notes-db" Profiles.stored) "notes-db"
              ("notes-db", ("encryptBackup", JObj []))
              (JStr "notes-db") (JStr "notes-db")
              eq_refl eq_refl eq_refl eq_refl eq_refl eq_refl)
           eq_refl).
Defined.

(** X21. The listing of [_getDefaultProfiles]: one lookup of
    [useDefaultConfigs] per profile of [appProfiles], run in order; a
    failed lookup rejects the listing with that failure; a lookup that
    yields no model rejects it with a TypeError; and a listing that is
    fulfilled holds, in the order of [appProfiles], the databases of
    exactly the fetched models whose flag is the number 1 or which live
    in the default database.  Filtering and plucking change nothing: the
    world at the end is the one the lookups leave. *)
Theorem default_profiles_listing :
  forall (P : ProfilesEnv) (m : Model P) (w w1 : World P)
         (outs : list (Settled (option (Model P)))),
    run_all (flag_lookups P (model_getValueJSON P m (st w))) w = (outs, w1) ->
    List.length outs = List.length (items (model_getValueJSON P m (st w)))
    /\ exists r,
         run (_getDefaultProfiles P (Some m)) w = (r, w1)
         /\ match join outs with
            | Rejected e => r = Failed e
            | Fulfilled fetched =>
                (In None fetched -> r = Failed TypeError)
                /\ (r = Failed TypeError
                    \/ exists models,
                         fetched = map Some models /\
                         r = Done (map (fun k => model_database P k (st w1))
                                       (filter (listed P (st w1)) models)))
            end.
Proof.
  intros P m w w1 outs Hall. split.
  - pose proof (run_all_length
                  (flag_lookups P (model_getValueJSON P m (st w))) w) as H.
    rewrite Hall in H. simpl in H. rewrite H. apply length_map.
  - unfold run, _getDefaultProfiles, bind, read, ret. cbv beta iota.
    unfold then_, Q_all. rewrite Hall.
    destruct (join outs) as [fetched|e]; [|eexists; split; reflexivity].
    destruct (filter_profiles_spec P fetched w1)
      as [r [Hrun [Hret [Hthrow Hnone]]]].
    rewrite Hrun. destruct r as [kept|e].
    + destruct (Hret kept eq_refl) as [models [-> ->]].
      rewrite pluck_database_models.
      eexists. split; [reflexivity|]. split.
      * intros Hin. specialize (Hnone Hin). discriminate Hnone.
      * right. exists models. split; reflexivity.
    + rewrite (Hthrow e eq_refl).
      eexists. split; [reflexivity|]. split; [reflexivity | left; reflexivity].
Qed.

Lemma default_profiles_witness :
  let appProfiles :=
    ("notes-db",
     ("appProfiles",
      JObj [("0", JStr "notes-db"); ("1", JStr "work");
            ("2", JStr "travel")])) in
  let w := Profiles.world "notes-db" Profiles.stored in
  exists r,
    run (_getDefaultProfiles (Profiles.penv "notes-db") (Some appProfiles)) w
    = (r, w)
    /\ (r = Failed TypeError
        \/ exists models,
             List.length models = 3 /\
             r = Done (map (fun k => Profiles.database (fst k))
                           (filter (listed (Profiles.penv "notes-db")
                                           Profiles.stored) models))).
Proof.
  cbv zeta.
  destruct (default_profiles_listing (Profiles.penv "notes-db")
              ("notes-db",
               ("appProfiles",
                JObj [("0", JStr "notes-db"); ("1", JStr "work");
                      ("2", JStr "travel")]))
              (Profiles.world "notes-db" Profiles.stored) _ _ eq_refl)
    as [_ [r [Hrun [_ Hr]]]].
  exists r. split; [exact Hrun|].
  destruct Hr as [Hr | [models [Hfetched Hr]]]; [left; exact Hr|].
  right. exists models. split; [|exact Hr].
  apply (f_equal (@List.length _)) in Hfetched.
  rewrite length_map in Hfetched. symmetry. exact Hfetched.
Defined.

(** X22. Listing and loading agree on the flag: a profile that
    [_getDefaultProfiles] lists because its [useDefaultConfigs] is the
    number 1 is one for which [getAll] clears [options.profile], that is
    loads the configs of the default profile (given that a string which
    converts to 1 converts to a number that is not 0).  The converse
    fails: a flag that is a number other than 0 and 1 makes [getAll] use
    the default profile although the flag does not list the profile. *)
Theorem listed_by_flag_is_redirected :
  forall (P : ProfilesEnv),
    (forall s, StringToNumber_is_1 P s = true ->
               StringToNumber_truthy P s = true) ->
    forall (m : Model P) (options : Obj) (w : World P),
      (number_is_1 P (model_get P m "value" (st w)) = Returned true ->
       resolveProfile P (Some m) options w
       = (Returned (set_prop "profile" JNull options), w))
      /\ (forall n : Z,
             model_get P m "value" (st w) = JNum n ->
             n <> 0%Z -> n <> 1%Z ->
             resolveProfile P (Some m) options w
             = (Returned (set_prop "profile" JNull options), w)
             /\ number_is_1 P (model_get P m "value" (st w))
                = Returned false).
Proof.
  intros P Hlaw m options w.
  unfold resolveProfile, bind, read, lift_exc, ret. cbv beta iota. split.
  - destruct (model_get P m "value" (st w)) as [| |b|n| |s|o]; simpl;
      intros H; try discriminate H.
    + injection H as ->. reflexivity.
    + injection H as H. apply Z.eqb_eq in H. subst n. reflexivity.
    + injection H as H. rewrite (Hlaw s H). reflexivity.
    + destruct (get_own "toString" o); discriminate H.
  - intros n -> Hn0 Hn1. simpl.
    apply Z.eqb_neq in Hn0, Hn1. rewrite Hn0, Hn1. split; reflexivity.
Qed.

Lemma listed_by_flag_witness :
  let travel : Model (Profiles.penv "notes-db") :=
    ("travel", ("useDefaultConfigs", JStr "1")) in
  resolveProfile (Profiles.penv "notes-db") (Some travel)
    [("profile", JStr "travel")]
    (Profiles.world "notes-db" Profiles.stored)
  = (Returned [("profile", JNull)],
     Profiles.world "notes-db" Profiles.stored).
Proof.
  cbv zeta.
  assert (Hlaw : forall s,
             StringToNumber_is_1 (Profiles.penv "notes-db") s = true ->
             StringToNumber_truthy (Profiles.penv "notes-db") s = true).
  { intros s H. apply String.eqb_eq in H. subst s. reflexivity. }
  apply (proj1 (listed_by_flag_is_redirected (Profiles.penv "notes-db") Hlaw
                  ("travel", ("useDefaultConfigs", JStr "1"))
                  [("profile", JStr "travel")]
                  (Profiles.world "notes-db" Profiles.stored))).
  reflexivity.
Defined.

(** X23. [getProfiles] only reads: neither the call nor the promise it
    hands back announces an event or prints to the console, whatever the
    collaborators do. *)
Theorem getProfiles_is_silent :
  forall (P : ProfilesEnv), silent_call (getProfiles P).
Proof.
  intros P. unfold getProfiles.
  apply silent_call_bind; [auto with silence | intros c].
  apply silent_call_bind; [auto with silence | intros database].
  apply silent_call_bind; [auto with silence | intros current].
  apply silent_call_bind; [auto with silence | intros backup].
  apply silent_call_bind; [auto with silence | intros defaultDB].
  apply silent_call_bind.
  - destruct (negb _); [apply quiet_ret|].
    destruct backup as [b|]; [|apply quiet_throw].
    apply quiet_bind; [apply quiet_read | intros database'].
    apply quiet_bind; [apply quiet_lift_exc | intros id]. apply quiet_ret.
  - intros [|].
    + destruct backup as [b|]; [|apply silent_call_throw].
      silent_step. auto with silence.
    + apply silent_call_ret, silent_then; [apply silent_getModel|].
      apply silent_call_getDefaultProfiles.
Qed.

(** X24. [getModel] adds no failure of its own to a lookup by name: a
    string is looked up as the options [{name: string}], and for options
    that are an object the promise is rejected only when the inherited
    lookup is, with the same error; a lookup that finds nothing is
    answered from the built-in defaults instead. *)
Theorem getModel_rejects_only_with_lookup :
  forall (E : Env),
    (forall (s : string) (w : World E),
        getModel E (JStr s) w = getModel E (JObj [("name", JStr s)]) w)
    /\ (forall (o : Obj) (w w' : World E) (e : JSError),
           getModel E (JObj o) w = (Rejected e, w') ->
           exists s',
             base_getModel E (JObj o) (st w) = (Rejected e, s') /\
             w' = with_st E w s')
    /\ (forall (o : Obj) (w : World E) (s1 s2 : St E) (c : Coll E),
           base_getModel E (JObj o) (st w) = (Fulfilled None, s1) ->
           base_changeDatabase_new E (JObj o) s1 = (c, s2) ->
           getModel E (JObj o) w
           = (Fulfilled (coll_getDefault E c (get_prop "name" o) s2),
              with_st E w s2)).
Proof.
  intros E. split; [reflexivity|]. split.
  - intros o w w' e. unfold getModel, then_, promise_of.
    destruct (base_getModel E (JObj o) (st w)) as [[[m|]|e0] s1].
    + simpl. discriminate.
    + unfold bind, call_st, lift_exc, read, ret, resolved. cbn [st with_st].
      destruct (base_changeDatabase_new E (JObj o) s1) as [c s2].
      simpl. discriminate.
    + intros H. injection H as <- <-. exists s1. split; reflexivity.
  - intros o w s1 s2 c Hlookup Hnew. unfold getModel, then_, promise_of.
    rewrite Hlookup.
    unfold bind, call_st, lift_exc, read, ret, resolved. cbn [st with_st].
    rewrite Hnew. reflexivity.
Qed.
